(** * uuidfield.fields: a shallow embedding of [UUIDField]

    The development follows [src/uuidfield/fields.py] (Python 2, Django).
    Python values are embedded as the inductive [PyVal]; a Python [str] is a
    byte string and is a Rocq [string]; a raised exception is the [Raise]
    case of [Result]; a keyword dictionary or the [__dict__] of a model
    instance is a [gmap string PyVal].

    The file has three layers:
    - the part of the Python runtime the field relies on (truthiness, the
      string methods [lower], [replace], [strip], the builtin [long(s, 16)],
      [%x] formatting, [binascii.unhexlify]);
    - the [uuid] module of the standard library: the [UUID] value object with
      its constructor and its [hex] and [bytes] attributes (embedded), and the
      four generators [uuid1], [uuid3], [uuid4], [uuid5] (an interface);
    - [UUIDField] itself, method by method. *)

From Stdlib Require Import ZArith String Ascii List Bool Lia.
From Stdlib Require Import DecimalString.
From stdpp Require Import base option list gmap strings.

Local Open Scope string_scope.
Local Open Scope Z_scope.

(** ** Exceptions and results *)

Inductive PyExc : Type :=
  | AssertionError
  | ValueError
  | TypeError
  | AttributeError.

Inductive Result (A : Type) : Type :=
  | Ok (a : A)
  | Raise (e : PyExc).

Arguments Ok {A} a.
Arguments Raise {A} e.

#[global] Instance Result_ret : MRet Result := fun A a => Ok a.

#[global] Instance Result_bind : MBind Result := fun A B k r =>
  match r with
  | Ok a => k a
  | Raise e => Raise e
  end.

(** ** Byte strings *)

Module Str.

Definition ord (c : ascii) : Z := Z.of_N (N_of_ascii c).
Definition chr (n : Z) : ascii := ascii_of_N (Z.to_N n).

Fixpoint all (p : ascii → bool) (s : string) : bool :=
  match s with
  | EmptyString => true
  | String c t => p c && all p t
  end.

Fixpoint mem (c : ascii) (s : string) : bool :=
  match s with
  | EmptyString => false
  | String d t => Ascii.eqb c d || mem c t
  end.

Fixpoint repeat (c : ascii) (n : nat) : string :=
  match n with
  | O => EmptyString
  | S k => String c (repeat c k)
  end.

(** [needle in hay] on strings: substring containment. *)
Fixpoint contains (needle hay : string) : bool :=
  String.prefix needle hay ||
  match hay with
  | EmptyString => false
  | String _ t => contains needle t
  end.

(** [s.lower()]: the ASCII capitals are moved to the small letters. *)
Definition lower_char (c : ascii) : ascii :=
  if (65 <=? ord c) && (ord c <=? 90) then chr (ord c + 32) else c.

Fixpoint lower (s : string) : string :=
  match s with
  | EmptyString => EmptyString
  | String c t => String (lower_char c) (lower t)
  end.

(** [s.replace(old, new)] for a non-empty [old]: the occurrences are found
    from the left and do not overlap. [skip] counts the characters of an
    occurrence that are still to be dropped. *)
Fixpoint replace_from (old new : string) (skip : nat) (s : string) : string :=
  match s with
  | EmptyString => EmptyString
  | String c t =>
      match skip with
      | S k => replace_from old new k t
      | O =>
          if String.prefix old s
          then new +:+ replace_from old new (String.length old - 1) t
          else String c (replace_from old new 0 t)
      end
  end.

(** With an empty [old] Python puts [new] around every character. *)
Fixpoint interleave (new s : string) : string :=
  match s with
  | EmptyString => new
  | String c t => new +:+ String c (interleave new t)
  end.

Definition replace (old new s : string) : string :=
  match old with
  | EmptyString => interleave new s
  | String _ _ => replace_from old new 0 s
  end.

(** [s.strip(chars)] *)
Fixpoint lstrip (chars s : string) : string :=
  match s with
  | EmptyString => EmptyString
  | String c t => if mem c chars then lstrip chars t else s
  end.

Fixpoint rstrip (chars s : string) : string :=
  match s with
  | EmptyString => EmptyString
  | String c t =>
      match rstrip chars t with
      | EmptyString => if mem c chars then EmptyString else String c EmptyString
      | r => String c r
      end
  end.

Definition strip (chars s : string) : string := rstrip chars (lstrip chars s).

Definition len (s : string) : Z := Z.of_nat (String.length s).

End Str.

(** ** Hexadecimal digits, [long(s, 16)] and [%x] *)

Module Hex.

(** The value of a digit in base 16, in either case. *)
Definition digit_val (c : ascii) : option Z :=
  let n := Str.ord c in
  if (48 <=? n) && (n <=? 57) then Some (n - 48)
  else if (97 <=? n) && (n <=? 102) then Some (n - 87)
  else if (65 <=? n) && (n <=? 70) then Some (n - 55)
  else None.

Definition is_digit (c : ascii) : bool :=
  match digit_val c with Some _ => true | None => false end.

(** The digits that [%x] writes: [0-9a-f]. *)
Definition is_lower_digit (c : ascii) : bool :=
  let n := Str.ord c in
  ((48 <=? n) && (n <=? 57)) || ((97 <=? n) && (n <=? 102)).

Definition digit_char (d : Z) : ascii :=
  if d <? 10 then Str.chr (48 + d) else Str.chr (87 + d).

(** The digit scan of the integer parser: consumes the longest run of
    digits and returns the accumulated value with the unread rest. *)
Fixpoint scan (acc : Z) (s : string) : Z * string :=
  match s with
  | EmptyString => (acc, EmptyString)
  | String c t =>
      match digit_val c with
      | Some d => scan (acc * 16 + d) t
      | None => (acc, s)
      end
  end.

Definition isspace (c : ascii) : bool :=
  let n := Str.ord c in (n =? 32) || ((9 <=? n) && (n <=? 13)).

Fixpoint skip_space (s : string) : string :=
  match s with
  | EmptyString => EmptyString
  | String c t => if isspace c then skip_space t else s
  end.

Definition is_char (c : ascii) (n : Z) : bool := Str.ord c =? n.

(** The builtin [long(s, 16)] of Python 2 on a [str]: a string with a NUL
    byte is refused; then blanks, an optional sign, blanks, an optional
    [0x] or [0X], at least one digit, an optional [L] or [l], blanks, and
    the end of the string. Anything else is a [ValueError]. *)
Definition long16 (s : string) : Result Z :=
  if negb (Str.all (fun c => negb (is_char c 0)) s) then Raise ValueError
  else
    let s1 := skip_space s in
    let '(sign, s2) :=
      match s1 with
      | String c t =>
          if is_char c 43 then (1, t)
          else if is_char c 45 then (-1, t)
          else (1, s1)
      | EmptyString => (1, s1)
      end in
    let s3 := skip_space s2 in
    let start :=
      match s3 with
      | String c0 (String c1 t) =>
          if is_char c0 48 && (is_char c1 120 || is_char c1 88) then t else s3
      | _ => s3
      end in
    let '(z, rest) := scan 0 start in
    if (String.length rest =? String.length start)%nat then Raise ValueError
    else
      let rest1 :=
        match rest with
        | String c t => if is_char c 76 || is_char c 108 then t else rest
        | EmptyString => rest
        end in
      match skip_space rest1 with
      | EmptyString => Ok (sign * z)
      | String _ _ => Raise ValueError
      end.

(** The digits of a non-negative [n], most significant first, in front of
    [acc]. The fuel is the bit length of [n], which is enough. *)
Fixpoint digits (fuel : nat) (n : Z) (acc : string) : string :=
  match fuel with
  | O => acc
  | S f =>
      let acc' := String (digit_char (n mod 16)) acc in
      if n <? 16 then acc' else digits f (n / 16) acc'
  end.

Definition of_Z (n : Z) : string :=
  digits (S (Z.to_nat (Z.log2 n))) n EmptyString.

Definition zero_pad (width : nat) (s : string) : string :=
  Str.repeat "0"%char (width - String.length s) +:+ s.

(** ['%0<width>x' % n]: zero padding goes between the sign and the digits. *)
Definition format (width : nat) (n : Z) : string :=
  if n <? 0 then String "-"%char (zero_pad (width - 1) (of_Z (- n)))
  else zero_pad width (of_Z n).

(** [binascii.unhexlify]: two digits make a byte; an odd length or a
    character that is no digit is a [TypeError] in Python 2. *)
Fixpoint unhexlify (s : string) : Result string :=
  match s with
  | EmptyString => Ok EmptyString
  | String _ EmptyString => Raise TypeError
  | String c0 (String c1 t) =>
      match digit_val c0, digit_val c1 with
      | Some h, Some l =>
          r ← unhexlify t; Ok (String (Str.chr (h * 16 + l)) r)
      | _, _ => Raise TypeError
      end
  end.

End Hex.

(** ** The [uuid] module: the [UUID] value object *)

Module uuid.

(** [0 <= int < 1<<128L], the check of the constructor. *)
Definition in_range (n : Z) : bool := (0 <=? n) && (n <? 2 ^ 128).

(** A [UUID] object holds one attribute, [int], and is immutable; every
    constructor path runs the range check, so the type carries it. *)
Record UUID : Type := mkUUID { int : Z; int_range : in_range int = true }.

(** [UUID(int=n)] *)
Definition of_int (n : Z) : Result UUID :=
  match Bool.bool_dec (in_range n) true with
  | left H => Ok (mkUUID n H)
  | right _ => Raise ValueError
  end.

(** [UUID(hex)]: the prefixes [urn:] and [uuid:], braces around the string
    and dashes are removed; 32 characters must remain, which [long] reads
    in base 16. *)
Definition of_hex (hex : string) : Result UUID :=
  let hex := Str.replace "uuid:" "" (Str.replace "urn:" "" hex) in
  let hex := Str.replace "-" "" (Str.strip "{}" hex) in
  if negb (String.length hex =? 32)%nat then Raise ValueError
  else n ← Hex.long16 hex; of_int n.

(** [('%02x'*16) % tuple(map(ord, bytes))] *)
Fixpoint ords_hex (bytes : string) : string :=
  match bytes with
  | EmptyString => EmptyString
  | String c t => Hex.format 2 (Str.ord c) +:+ ords_hex t
  end.

(** [UUID(bytes=b)] *)
Definition of_bytes (bytes : string) : Result UUID :=
  if negb (String.length bytes =? 16)%nat then Raise ValueError
  else n ← Hex.long16 (ords_hex bytes); of_int n.

(** [range(0, 128, 8)] *)
Definition shifts : list Z := map (fun i => 8 * Z.of_nat i) (seq 0 16).

(** The [bytes] attribute: the loop puts the byte of each shift in front
    of the bytes found so far. *)
Definition get_bytes (u : UUID) : string :=
  fold_left
    (fun bytes shift => String (Str.chr (Z.land (Z.shiftr (int u) shift) 255)) bytes)
    shifts EmptyString.

(** The [hex] attribute: ['%032x' % self.int] *)
Definition get_hex (u : UUID) : string := Hex.format 32 (int u).

(** [uuid.NAMESPACE_DNS] *)
Definition NAMESPACE_DNS : UUID :=
  mkUUID 0x6ba7b8109dad11d180b400c04fd430c8 eq_refl.

End uuid.

(** ** Python values

    The values embedded are [None], [bool], [int], [str] and [UUID]
    objects. Containers ([list], [tuple], [dict]) and [unicode] strings
    are not embedded, so a statement over all of [PyVal] says nothing
    about them. *)

Inductive PyVal : Type :=
  | PNone
  | PBool (b : bool)
  | PInt (n : Z)
  | PStr (s : string)
  | PUUID (u : uuid.UUID).

(** Truth value testing. [UUID] defines neither [__nonzero__] nor [__len__],
    so every [UUID] object is true. *)
Definition truthy (v : PyVal) : bool :=
  match v with
  | PNone => false
  | PBool b => b
  | PInt n => negb (n =? 0)
  | PStr s => negb (String.eqb s "")
  | PUUID _ => true
  end.

Definition is_None (v : PyVal) : bool :=
  match v with PNone => true | _ => false end.

(** [isinstance(v, uuid.UUID)] *)
Definition isinstance_UUID (v : PyVal) : bool :=
  match v with PUUID _ => true | _ => false end.

(** [isinstance(v, str)] *)
Definition isinstance_str (v : PyVal) : bool :=
  match v with PStr _ => true | _ => false end.

Definition decimal (n : Z) : string := NilZero.string_of_int (Z.to_int n).

(** [str(UUID)]: the hex digits in the groups 8-4-4-4-12. *)
Definition UUID_str (u : uuid.UUID) : string :=
  let h := uuid.get_hex u in
  substring 0 8 h +:+ "-" +:+ substring 8 4 h +:+ "-" +:+ substring 12 4 h
  +:+ "-" +:+ substring 16 4 h +:+ "-" +:+ substring 20 12 h.

(** ['%s' % v] *)
Definition py_str (v : PyVal) : string :=
  match v with
  | PNone => "None"
  | PBool true => "True"
  | PBool false => "False"
  | PInt n => decimal n
  | PStr s => s
  | PUUID u => UUID_str u
  end.

(** [unicode(v)]: a [str] is decoded as ASCII, and a byte above 127 is a
    [UnicodeDecodeError], which is a [ValueError]; every other value goes
    through its [str]. *)
Definition is_ascii (s : string) : bool :=
  Str.all (fun c => Str.ord c <? 128) s.

Definition py_unicode (v : PyVal) : Result string :=
  match v with
  | PStr s => if is_ascii s then Ok s else Raise ValueError
  | _ => Ok (py_str v)
  end.

(** Method calls and builtins on a value; only [str] has the string
    methods and a length. *)
Definition py_lower (v : PyVal) : Result PyVal :=
  match v with
  | PStr s => Ok (PStr (Str.lower s))
  | _ => Raise AttributeError
  end.

Definition py_replace (v : PyVal) (old new : string) : Result PyVal :=
  match v with
  | PStr s => Ok (PStr (Str.replace old new s))
  | _ => Raise AttributeError
  end.

Definition py_len (v : PyVal) : Result Z :=
  match v with
  | PStr s => Ok (Str.len s)
  | _ => Raise TypeError
  end.

Definition py_unhexlify (v : PyVal) : Result PyVal :=
  match v with
  | PStr s => r ← Hex.unhexlify s; Ok (PStr r)
  | _ => Raise TypeError
  end.

(** [uuid.UUID(v)] and [uuid.UUID(bytes=v)] *)
Definition UUID_of_hex (v : PyVal) : Result PyVal :=
  match v with
  | PStr s => u ← uuid.of_hex s; Ok (PUUID u)
  | _ => Raise AttributeError
  end.

Definition UUID_of_bytes (v : PyVal) : Result PyVal :=
  match v with
  | PStr s => u ← uuid.of_bytes s; Ok (PUUID u)
  | _ => Raise TypeError
  end.

(** ** The generators of the [uuid] module

    [uuid1], [uuid3], [uuid4] and [uuid5] belong to the standard library;
    they read the clock, the host identity and the random source, or hash
    their arguments. The field only calls them, so they are an interface
    here: each maps its arguments and the state of the host to an outcome
    and the next state. *)

Class Generators (World : Type) : Type := {
  uuid1 : PyVal → PyVal → World → Result uuid.UUID * World;
  uuid3 : PyVal → PyVal → World → Result uuid.UUID * World;
  uuid4 : World → Result uuid.UUID * World;
  uuid5 : PyVal → PyVal → World → Result uuid.UUID * World
}.

(** The call through [getattr(uuid, 'uuid%s' % version)] with the argument
    tuple unpacked: the module has the four
    names [uuid1], [uuid3], [uuid4], [uuid5] and no other of that shape. *)
Definition call_generator `{Generators World}
    (version : Z) (args : list PyVal) (w : World) : Result uuid.UUID * World :=
  match version, args with
  | 1, [a; b] => uuid1 a b w
  | 3, [a; b] => uuid3 a b w
  | 5, [a; b] => uuid5 a b w
  | 4, [] => uuid4 w
  | 1, _ | 3, _ | 4, _ | 5, _ => (Raise TypeError, w)
  | _, _ => (Raise AttributeError, w)
  end.

(** ** The base class: [django.db.models.Field.__init__]

    Of the base class only the constructor matters here: it binds the
    positional and keyword arguments it is given to its parameters and
    stores them as attributes. *)

Module Field.

Definition params : list string :=
  [ "verbose_name"; "name"; "primary_key"; "max_length"; "unique"; "blank";
    "null"; "db_index"; "rel"; "default"; "editable"; "serialize";
    "unique_for_date"; "unique_for_month"; "unique_for_year"; "choices";
    "help_text"; "db_column"; "db_tablespace"; "auto_created"; "validators";
    "error_messages" ].

(** Positional arguments take the parameters in order; a parameter given
    both ways, or an argument too many, is a [TypeError]. *)
Fixpoint bind_positional (ps : list string) (args : list PyVal)
    (kwargs : gmap string PyVal) : Result (gmap string PyVal) :=
  match args, ps with
  | [], _ => Ok kwargs
  | a :: args', p :: ps' =>
      match kwargs !! p with
      | Some _ => Raise TypeError
      | None => bind_positional ps' args' (<[p := a]> kwargs)
      end
  | _ :: _, [] => Raise TypeError
  end.

(** A keyword that is no parameter is a [TypeError]. *)
Definition known_keywords (kwargs : gmap string PyVal) : bool :=
  forallb (fun kv => bool_decide (kv.1 ∈ params)) (map_to_list kwargs).

Definition bind (args : list PyVal) (kwargs : gmap string PyVal)
    : Result (gmap string PyVal) :=
  if known_keywords kwargs then bind_positional params args kwargs
  else Raise TypeError.

Definition get (bound : gmap string PyVal) (p : string) (dflt : PyVal) : PyVal :=
  default dflt (bound !! p).

End Field.

Record Connection : Type := {
  vendor : string;
  alias : string
}.

(** ** [UUIDField] *)

Module UUIDField.

(** The attributes of a field object. [node] and [clock_seq] exist only on
    a version 1 field, [namespace] only on a version 3 or 5 field; [name]
    is on every field, because the base class assigns it: its constructor
    from its own parameter [name], and the model class the field is added
    to from the attribute name, with [attname]; the last five are the ones
    the base class stores. *)
Record t : Type := {
  auto : bool;
  version : Z;
  node : option PyVal;
  clock_seq : option PyVal;
  namespace : option PyVal;
  name : option PyVal;
  attname : option string;
  max_length : PyVal;
  editable : PyVal;
  blank : PyVal;
  _unique : PyVal;
  primary_key : PyVal
}.

(** The [unique] property of the base class: [_unique or primary_key]. *)
Definition unique (self : t) : PyVal :=
  if truthy (_unique self) then _unique self else primary_key self.

(** Reading an attribute that may be missing. *)
Definition getattr {A : Type} (a : option A) : Result A :=
  match a with
  | Some v => Ok v
  | None => Raise AttributeError
  end.

(** The arguments of the constructor, with its defaults. *)
Record InitArgs : Type := {
  arg_version : Z;
  arg_node : PyVal;
  arg_clock_seq : PyVal;
  arg_namespace : PyVal;
  arg_name : PyVal;
  arg_auto : bool;
  arg_args : list PyVal;
  arg_kwargs : gmap string PyVal
}.

Definition defaults : InitArgs := {|
  arg_version := 4;
  arg_node := PNone;
  arg_clock_seq := PNone;
  arg_namespace := PNone;
  arg_name := PNone;
  arg_auto := false;
  arg_args := [];
  arg_kwargs := ∅
|}.

(** [version in (1, 3, 4, 5)] *)
Definition supported (version : Z) : bool :=
  (version =? 1) || (version =? 3) || (version =? 4) || (version =? 5).

(** The keyword dictionary as it is handed to the base class. *)
Definition base_kwargs (a : InitArgs) : gmap string PyVal :=
  let kwargs := <["max_length" := PInt 32]> (arg_kwargs a) in
  if arg_auto a
  then <["unique" := PBool true]>
         (<["blank" := PBool true]> (<["editable" := PBool false]> kwargs))
  else kwargs.

(** The constructor of the base class runs last and assigns [self.name]
    from its own parameter [name], over what the branch of the versions 3
    and 5 has stored there. *)
Definition __init__ (a : InitArgs) : Result t :=
  if negb (supported (arg_version a)) then Raise AssertionError
  else
    let kwargs := base_kwargs a in
    let '(node, clock_seq) :=
      if arg_version a =? 1 then (Some (arg_node a), Some (arg_clock_seq a))
      else (None, None) in
    let '(namespace, name) :=
      if arg_version a =? 1 then (None, None)
      else if (arg_version a =? 3) || (arg_version a =? 5)
      then (Some (arg_namespace a), Some (arg_name a))
      else (None, None) in
    bound ← Field.bind (arg_args a) kwargs;
    let name := Some (Field.get bound "name" PNone) in
    Ok {| auto := arg_auto a;
          version := arg_version a;
          node := node;
          clock_seq := clock_seq;
          namespace := namespace;
          name := name;
          attname := None;
          max_length := Field.get bound "max_length" PNone;
          editable := Field.get bound "editable" (PBool true);
          blank := Field.get bound "blank" (PBool false);
          _unique := Field.get bound "unique" (PBool false);
          primary_key := Field.get bound "primary_key" (PBool false) |}.

(** The model class binds the field to an attribute name
    ([set_attributes_from_name]): [self.name] and [self.attname] become
    that name. *)
Definition set_attname (self : t) (a : string) : t :=
  {| auto := auto self; version := version self; node := node self;
     clock_seq := clock_seq self; namespace := namespace self;
     name := Some (PStr a); attname := Some a; max_length := max_length self;
     editable := editable self; blank := blank self;
     _unique := _unique self; primary_key := primary_key self |}.

(** The argument tuple that [_create_uuid] builds. In the branch of the
    versions 3 and 5 the flag [error] is set to [None] and never assigned
    again: the two tests on [name] and [namespace] assign [error_attr]. *)
Definition _create_uuid_args (self : t) : Result (list PyVal) :=
  if version self =? 1 then
    node ← getattr (node self);
    clock_seq ← getattr (clock_seq self);
    Ok [node; clock_seq]
  else if (version self =? 3) || (version self =? 5) then
    let error := PNone in
    name ← getattr (name self);
    namespace ← getattr (namespace self);
    let error_attr :=
      if is_None name then Some "name"
      else if is_None namespace then Some "namespace"
      else None in
    if negb (is_None error) then Raise ValueError
    else if negb (isinstance_UUID namespace) then Raise ValueError
    else Ok [namespace; name]
  else Ok [].

Definition _create_uuid `{Generators World} (self : t) (w : World)
    : Result uuid.UUID * World :=
  match _create_uuid_args self with
  | Raise e => (Raise e, w)
  | Ok args => call_generator (version self) args w
  end.

Definition vendor_has (needle : string) (connection : option Connection) : bool :=
  match connection with
  | Some c => Str.contains needle (vendor c)
  | None => false
  end.

Definition db_type (self : t) (connection : option Connection) : string :=
  if vendor_has "postgres" connection then "uuid"
  else if vendor_has "mysql" connection then "binary(16)"
  else "char(" +:+ py_str (max_length self) +:+ ")".

Definition _db_is_binary (self : t) (con : option Connection) : bool :=
  String.eqb (db_type self con) "binary(16)".

(** [pre_save] returns the value to store and leaves the model instance,
    whose attributes are a dictionary, as the hook has changed it. *)
Definition pre_save `{Generators World} (self : t)
    (model_instance : gmap string PyVal) (add : bool) (w : World)
    : Result PyVal * gmap string PyVal * World :=
  match getattr (attname self) with
  | Raise e => (Raise e, model_instance, w)
  | Ok att =>
      let value := default PNone (model_instance !! att) in
      if auto self && add && negb (truthy value) then
        match _create_uuid self w with
        | (Ok u, w') =>
            (Ok (PStr (uuid.get_hex u)), <[att := PUUID u]> model_instance, w')
        | (Raise e, w') => (Raise e, model_instance, w')
        end
      else (Ok value, model_instance, w)
  end.

(** In the textual branch the result of [value.lower()] is not bound to
    anything; the value that goes on is the one without dashes. *)
Definition get_db_prep_value (self : t) (value : PyVal)
    (connection : option Connection) : Result PyVal :=
  let binary := _db_is_binary self connection in
  match value with
  | PUUID u =>
      if binary then Ok (PStr (uuid.get_bytes u))
      else Ok (PStr (uuid.get_hex u))
  | _ =>
      _ ← py_lower value;
      value ← py_replace value "-" "";
      if binary then py_unhexlify value else Ok value
  end.

Definition to_python (self : t) (value : PyVal) : Result PyVal :=
  if negb (truthy value) then Ok PNone
  else if isinstance_UUID value then Ok value
  else
    n ← py_len value;
    if n =? 16 then UUID_of_bytes value else UUID_of_hex value.

(** [_get_val_from_obj] of the base class: the attribute of the instance
    under [attname], or, without an instance, what [get_default()] gives. *)
Definition _get_val_from_obj (self : t) (get_default : PyVal)
    (obj : option (gmap string PyVal)) : Result PyVal :=
  match obj with
  | Some o => att ← getattr (attname self); getattr (o !! att)
  | None => Ok get_default
  end.

Definition value_to_string (self : t) (get_default : PyVal)
    (obj : option (gmap string PyVal)) : Result string :=
  val ← _get_val_from_obj self get_default obj;
  if is_None val then Ok EmptyString else py_unicode val.

(** A keyword argument of [formfield]: the form class or a plain value. *)
Inductive FormArg : Type :=
  | FormClass (cls : string)
  | FormValue (v : PyVal).

(** The dictionary that [formfield] hands to the base class: the two
    defaults, updated with the caller's keywords. *)
Definition formfield (self : t) (kwargs : gmap string FormArg)
    : gmap string FormArg :=
  let defaults : gmap string FormArg :=
    <["max_length" := FormValue (max_length self)]>
      (<["form_class" := FormClass "forms.CharField"]> ∅) in
  kwargs ∪ defaults.

End UUIDField.

(** ** Helpers of the statements and sample inputs *)

Ltac each_ascii c :=
  destruct c as [[] [] [] [] [] [] [] []].

(** The number a byte string spells, most significant byte first. *)
Fixpoint be_int (acc : Z) (bytes : string) : Z :=
  match bytes with
  | EmptyString => acc
  | String c t => be_int (acc * 256 + Str.ord c) t
  end.

(** The loop of the [bytes] attribute after [k] rounds. *)
Definition bytes_upto (n : Z) (k : nat) : string :=
  fold_left
    (fun bytes shift => String (Str.chr (Z.land (Z.shiftr n shift) 255)) bytes)
    (map (fun i => 8 * Z.of_nat i) (seq 0 k)) EmptyString.

(** A string without its dashes. *)
Fixpoint drop_dashes (s : string) : string :=
  match s with
  | EmptyString => EmptyString
  | String c t =>
      if Ascii.eqb c "-" then drop_dashes t else String c (drop_dashes t)
  end.






(** A host whose generators hand out the next of a list of prepared
    outcomes, whatever their arguments are. *)
Definition scripted_next (w : list (Result uuid.UUID))
    : Result uuid.UUID * list (Result uuid.UUID) :=
  match w with
  | r :: w' => (r, w')
  | [] => (Raise ValueError, [])
  end.

#[local] Instance Scripted : Generators (list (Result uuid.UUID)) := {|
  uuid1 := fun _ _ => scripted_next;
  uuid3 := fun _ _ => scripted_next;
  uuid4 := scripted_next;
  uuid5 := fun _ _ => scripted_next
|}.

Definition sqlite : option Connection :=
  Some {| vendor := "sqlite"; alias := "default" |}.
Definition mysql : option Connection :=
  Some {| vendor := "mysql"; alias := "default" |}.
Definition postgresql : option Connection :=
  Some {| vendor := "postgresql"; alias := "default" |}.

(** [UUIDField(auto=True)], bound to the attribute [uuid] of a model. *)
Definition auto_args : UUIDField.InitArgs := {|
  UUIDField.arg_version := 4;
  UUIDField.arg_node := PNone;
  UUIDField.arg_clock_seq := PNone;
  UUIDField.arg_namespace := PNone;
  UUIDField.arg_name := PNone;
  UUIDField.arg_auto := true;
  UUIDField.arg_args := [];
  UUIDField.arg_kwargs := ∅
|}.

Definition unbound_auto_field : UUIDField.t := {|
  UUIDField.auto := true;
  UUIDField.version := 4;
  UUIDField.node := None;
  UUIDField.clock_seq := None;
  UUIDField.namespace := None;
  UUIDField.name := Some PNone;
  UUIDField.attname := None;
  UUIDField.max_length := PInt 32;
  UUIDField.editable := PBool false;
  UUIDField.blank := PBool true;
  UUIDField._unique := PBool true;
  UUIDField.primary_key := PBool false
|}.

Definition auto_field : UUIDField.t :=
  UUIDField.set_attname unbound_auto_field "uuid".

(** [UUID('16fd2706-8baf-433b-82eb-8c7fada847da')], a version 4 value. *)
Definition sample_v4 : uuid.UUID :=
  uuid.mkUUID 0x16fd27068baf433b82eb8c7fada847da eq_refl.

(** [UUIDField(version=3, namespace=uuid.NAMESPACE_DNS)]: no [name]. *)
Definition v3_no_name_args : UUIDField.InitArgs := {|
  UUIDField.arg_version := 3;
  UUIDField.arg_node := PNone;
  UUIDField.arg_clock_seq := PNone;
  UUIDField.arg_namespace := PUUID uuid.NAMESPACE_DNS;
  UUIDField.arg_name := PNone;
  UUIDField.arg_auto := false;
  UUIDField.arg_args := [];
  UUIDField.arg_kwargs := ∅
|}.



(** [UUIDField(version=3, namespace=uuid.NAMESPACE_DNS,
    name='example.org')], before and after it is bound to the attribute
    [uuid] of a model. *)
Definition v3_named_args : UUIDField.InitArgs := {|
  UUIDField.arg_version := 3;
  UUIDField.arg_node := PNone;
  UUIDField.arg_clock_seq := PNone;
  UUIDField.arg_namespace := PUUID uuid.NAMESPACE_DNS;
  UUIDField.arg_name := PStr "example.org";
  UUIDField.arg_auto := false;
  UUIDField.arg_args := [];
  UUIDField.arg_kwargs := ∅
|}.

Definition v3_named_field : UUIDField.t := {|
  UUIDField.auto := false;
  UUIDField.version := 3;
  UUIDField.node := None;
  UUIDField.clock_seq := None;
  UUIDField.namespace := Some (PUUID uuid.NAMESPACE_DNS);
  UUIDField.name := Some PNone;
  UUIDField.attname := None;
  UUIDField.max_length := PInt 32;
  UUIDField.editable := PBool true;
  UUIDField.blank := PBool false;
  UUIDField._unique := PBool false;
  UUIDField.primary_key := PBool false
|}.

(** * Properties *)

(** ** The embedding on concrete inputs *)

Example contains_postgres : Str.contains "postgres" "postgresql" = true.
Proof. reflexivity. Qed.

Example replace_dashes :
  Str.replace "-" "" "6ba7b810-9dad-11d1-80b4-00c04fd430c8"
  = "6ba7b8109dad11d180b400c04fd430c8".
Proof. reflexivity. Qed.

Example replace_urn :
  Str.replace "urn:" "" (Str.replace "uuid:" "" "urn:uuid:{12-34}") = "{12-34}".
Proof. reflexivity. Qed.

Example strip_braces : Str.strip "{}" "{{12}34}" = "12}34".
Proof. reflexivity. Qed.

Example long16_plain : Hex.long16 "ff" = Ok 255.
Proof. reflexivity. Qed.

Example long16_prefix : Hex.long16 " +0x1fL " = Ok 31.
Proof. reflexivity. Qed.

Example long16_bad : Hex.long16 "12g4" = Raise ValueError.
Proof. reflexivity. Qed.

Example format_32 : Hex.format 32 255 = "000000000000000000000000000000ff".
Proof. reflexivity. Qed.

Example unhexlify_ab : Hex.unhexlify "4142" = Ok "AB".
Proof. reflexivity. Qed.

Example hex_dns :
  uuid.get_hex uuid.NAMESPACE_DNS = "6ba7b8109dad11d180b400c04fd430c8".
Proof. reflexivity. Qed.

Example of_hex_dns :
  uuid.of_hex "6ba7b810-9dad-11d1-80b4-00c04fd430c8" = Ok uuid.NAMESPACE_DNS.
Proof. reflexivity. Qed.

Example of_hex_urn :
  uuid.of_hex "urn:uuid:{6BA7B810-9DAD-11D1-80B4-00C04FD430C8}"
  = Ok uuid.NAMESPACE_DNS.
Proof. reflexivity. Qed.

Example of_hex_short : uuid.of_hex "6ba7b810" = Raise ValueError.
Proof. reflexivity. Qed.

Example bytes_dns :
  uuid.of_bytes (uuid.get_bytes uuid.NAMESPACE_DNS) = Ok uuid.NAMESPACE_DNS.
Proof. reflexivity. Qed.

Example bytes_dns_length :
  String.length (uuid.get_bytes uuid.NAMESPACE_DNS) = 16%nat.
Proof. reflexivity. Qed.

Example str_dns :
  py_str (PUUID uuid.NAMESPACE_DNS) = "6ba7b810-9dad-11d1-80b4-00c04fd430c8".
Proof. reflexivity. Qed.

Example str_32 : py_str (PInt 32) = "32".
Proof. reflexivity. Qed.

(** ** Characters and digits *)

Lemma ord_range (c : ascii) : 0 <= Str.ord c < 256.
Proof. each_ascii c; vm_compute; split; congruence. Qed.

Lemma ord_chr (n : Z) : 0 <= n < 256 → Str.ord (Str.chr n) = n.
Proof.
  intros Hn. unfold Str.ord, Str.chr.
  rewrite N_ascii_embedding by lia. lia.
Qed.

Lemma digit_char_val (d : Z) :
  0 <= d < 16 → Hex.digit_val (Hex.digit_char d) = Some d.
Proof.
  intros Hd. unfold Hex.digit_val, Hex.digit_char.
  destruct (Z.ltb_spec d 10); rewrite ord_chr by lia.
  - replace ((48 <=? 48 + d) && (48 + d <=? 57)) with true; [f_equal; lia |].
    symmetry; apply andb_true_iff; split; apply Z.leb_le; lia.
  - replace ((48 <=? 87 + d) && (87 + d <=? 57)) with false.
    + replace ((97 <=? 87 + d) && (87 + d <=? 102)) with true; [f_equal; lia |].
      symmetry; apply andb_true_iff; split; apply Z.leb_le; lia.
    + symmetry; apply andb_false_iff; right; apply Z.leb_gt; lia.
Qed.

Lemma digit_char_lower (d : Z) :
  0 <= d < 16 → Hex.is_lower_digit (Hex.digit_char d) = true.
Proof.
  intros Hd. unfold Hex.is_lower_digit, Hex.digit_char.
  destruct (Z.ltb_spec d 10); rewrite ord_chr by lia;
    apply orb_true_iff; [left | right];
    apply andb_true_iff; split; apply Z.leb_le; lia.
Qed.

(** What a character that [%x] writes cannot be. *)
Lemma lower_digit_facts (c : ascii) :
  Hex.is_lower_digit c = true →
  Hex.is_digit c = true ∧ Hex.isspace c = false ∧
  Hex.is_char c 0 = false ∧ Hex.is_char c 43 = false ∧
  Hex.is_char c 45 = false ∧ Hex.is_char c 120 = false ∧
  Hex.is_char c 88 = false ∧ Str.mem c "{}" = false ∧
  c ≠ "u"%char ∧ c ≠ "-"%char.
Proof.
  each_ascii c; vm_compute; intros H;
    first [ discriminate H | repeat split; congruence ].
Qed.

Lemma lower_digit_is_digit (c : ascii) :
  Hex.is_lower_digit c = true → ∃ d, Hex.digit_val c = Some d.
Proof.
  intros H. apply lower_digit_facts in H as [H _].
  unfold Hex.is_digit in H. destruct (Hex.digit_val c); [eauto | discriminate].
Qed.

(** ** Strings *)

Lemma all_impl (p q : ascii → bool) (s : string) :
  (∀ c, p c = true → q c = true) → Str.all p s = true → Str.all q s = true.
Proof.
  intros Hpq. induction s as [| c t IH]; simpl; [done |].
  intros [Hc Ht]%andb_true_iff. rewrite (Hpq c Hc), IH; done.
Qed.

Lemma all_app (p : ascii → bool) (s t : string) :
  Str.all p (s +:+ t) = Str.all p s && Str.all p t.
Proof.
  induction s as [| c s IH]; simpl; [done |].
  rewrite IH. apply andb_assoc.
Qed.

Lemma all_repeat (p : ascii → bool) (c : ascii) (n : nat) :
  p c = true → Str.all p (Str.repeat c n) = true.
Proof. intros Hc. induction n; simpl; [done |]. rewrite Hc, IHn; done. Qed.

Lemma length_repeat (c : ascii) (n : nat) :
  String.length (Str.repeat c n) = n.
Proof. induction n; simpl; congruence. Qed.

Lemma length_app (s t : string) :
  String.length (s +:+ t) = (String.length s + String.length t)%nat.
Proof. induction s as [| c s IH]; simpl; [done | by rewrite IH]. Qed.

(** Replacing a substring whose first character does not occur changes
    nothing. *)
Lemma replace_absent (c0 : ascii) (old new s : string) :
  Str.all (fun c => negb (Ascii.eqb c0 c)) s = true →
  Str.replace (String c0 old) new s = s.
Proof.
  unfold Str.replace. induction s as [| c t IH]; simpl; [done |].
  intros [Hc Ht]%andb_true_iff.
  destruct (ascii_dec c0 c) as [-> | _].
  - rewrite Ascii.eqb_refl in Hc. discriminate.
  - rewrite IH; done.
Qed.

Lemma lstrip_head (chars : string) (c : ascii) (t : string) :
  Str.mem c chars = false → Str.lstrip chars (String c t) = String c t.
Proof. intros H. simpl. rewrite H. done. Qed.

Lemma rstrip_none (chars s : string) :
  Str.all (fun c => negb (Str.mem c chars)) s = true → Str.rstrip chars s = s.
Proof.
  induction s as [| c t IH]; simpl; [done |].
  intros [Hc Ht]%andb_true_iff. rewrite IH by done.
  apply negb_true_iff in Hc. rewrite Hc. destruct t; done.
Qed.

(** ** Writing and reading base 16 *)

Lemma scan_digits (fuel : nat) :
  ∀ (n : Z) (rest : string), 0 <= n < 16 ^ Z.of_nat fuel →
  Hex.scan 0 (Hex.digits fuel n rest) = Hex.scan n rest.
Proof.
  induction fuel as [| f IH]; intros n rest Hn.
  - simpl in *. by replace n with 0 by lia.
  - cbn [Hex.digits].
    assert (Hm : 0 <= n mod 16 < 16) by (apply Z.mod_pos_bound; lia).
    destruct (Z.ltb_spec n 16) as [Hlt | Hge].
    + cbn [Hex.scan]. rewrite digit_char_val by done.
      f_equal. rewrite Z.mod_small; lia.
    + rewrite IH.
      * cbn [Hex.scan]. rewrite digit_char_val by done.
        f_equal. pose proof (Z.div_mod n 16). lia.
      * rewrite Nat2Z.inj_succ, Z.pow_succ_r in Hn by lia.
        split; [apply Z.div_pos; lia | apply Z.div_lt_upper_bound; lia].
Qed.

Lemma digits_lower (fuel : nat) :
  ∀ (n : Z) (rest : string), 0 <= n →
  Str.all Hex.is_lower_digit rest = true →
  Str.all Hex.is_lower_digit (Hex.digits fuel n rest) = true.
Proof.
  induction fuel as [| f IH]; intros n rest Hn Hrest; [done |].
  cbn [Hex.digits].
  assert (Hm : 0 <= n mod 16 < 16) by (apply Z.mod_pos_bound; lia).
  assert (Hacc : Str.all Hex.is_lower_digit
                   (String (Hex.digit_char (n mod 16)) rest) = true).
  { simpl. by rewrite digit_char_lower, Hrest. }
  destruct (n <? 16); [done |].
  apply IH; [apply Z.div_pos; lia | done].
Qed.

Lemma digits_length (fuel : nat) :
  ∀ (n : Z) (k : nat) (rest : string), 0 <= n < 16 ^ Z.of_nat (S k) →
  (String.length (Hex.digits fuel n rest) <= S k + String.length rest)%nat.
Proof.
  induction fuel as [| f IH]; intros n k rest Hn; [simpl; lia |].
  cbn [Hex.digits].
  destruct (Z.ltb_spec n 16) as [Hlt | Hge]; [simpl; lia |].
  destruct k as [| k].
  - change (16 ^ Z.of_nat 1) with 16 in Hn. lia.
  - etrans; [apply (IH _ k) |]; [| simpl; lia].
    rewrite (Nat2Z.inj_succ (S k)), Z.pow_succ_r in Hn by lia.
    split; [apply Z.div_pos; lia | apply Z.div_lt_upper_bound; lia].
Qed.

(** The bit length of [n] is enough fuel for its digits. *)
Lemma fuel_enough (n : Z) :
  0 <= n → n < 16 ^ Z.of_nat (S (Z.to_nat (Z.log2 n))).
Proof.
  intros Hn. rewrite Nat2Z.inj_succ, Z2Nat.id by apply Z.log2_nonneg.
  destruct (Z.eq_dec n 0) as [-> | Hne]; [done |].
  pose proof (Z.log2_spec n ltac:(lia)) as [_ Hlt].
  eapply Z.lt_le_trans; [exact Hlt |].
  apply Z.pow_le_mono_l. pose proof (Z.log2_nonneg n). lia.
Qed.

Lemma scan_of_Z (n : Z) : 0 <= n → Hex.scan 0 (Hex.of_Z n) = (n, EmptyString).
Proof.
  intros Hn. unfold Hex.of_Z. rewrite scan_digits; [done |].
  split; [done | by apply fuel_enough].
Qed.

Lemma scan_zero_pad (width : nat) (s : string) :
  Hex.scan 0 (Hex.zero_pad width s) = Hex.scan 0 s.
Proof.
  unfold Hex.zero_pad. induction (width - String.length s)%nat; [done |].
  simpl. exact IHn.
Qed.

Lemma zero_pad_lower (width : nat) (s : string) :
  Str.all Hex.is_lower_digit s = true →
  Str.all Hex.is_lower_digit (Hex.zero_pad width s) = true.
Proof.
  intros Hs. unfold Hex.zero_pad. rewrite all_app, Hs, all_repeat; done.
Qed.

Lemma zero_pad_length (width : nat) (s : string) :
  (String.length s <= width)%nat →
  String.length (Hex.zero_pad width s) = width.
Proof.
  intros Hs. unfold Hex.zero_pad. rewrite length_app, length_repeat. lia.
Qed.

(** ['%0<w>x' % n] for [0 <= n < 16 ** w]: [w] small hexadecimal digits
    that read back as [n]. *)
Lemma format_spec (k : nat) (n : Z) :
  0 <= n < 16 ^ Z.of_nat (S k) →
  String.length (Hex.format (S k) n) = S k ∧
  Str.all Hex.is_lower_digit (Hex.format (S k) n) = true ∧
  Hex.scan 0 (Hex.format (S k) n) = (n, EmptyString).
Proof.
  intros Hn. unfold Hex.format.
  destruct (Z.ltb_spec n 0) as [Hneg | _]; [lia |].
  split; [| split].
  - apply zero_pad_length. unfold Hex.of_Z.
    pose proof (digits_length (S (Z.to_nat (Z.log2 n))) n k EmptyString Hn).
    simpl in *. lia.
  - apply zero_pad_lower. unfold Hex.of_Z. apply digits_lower; [lia | done].
  - rewrite scan_zero_pad. apply scan_of_Z. lia.
Qed.

(** [long(s, 16)] on a non-empty string of small hexadecimal digits. *)
Lemma long16_lower_digits (s : string) (z : Z) :
  s ≠ EmptyString →
  Str.all Hex.is_lower_digit s = true →
  Hex.scan 0 s = (z, EmptyString) →
  Hex.long16 s = Ok z.
Proof.
  intros Hne Hall Hscan. unfold Hex.long16.
  assert (Hnul : Str.all (fun c => negb (Hex.is_char c 0)) s = true).
  { revert Hall. apply all_impl. intros c Hc.
    apply lower_digit_facts in Hc. apply negb_true_iff. tauto. }
  rewrite Hnul. cbn [negb].
  destruct s as [| c0 t]; [done |]. clear Hne.
  simpl in Hall. apply andb_true_iff in Hall as [Hc0 Ht].
  pose proof (lower_digit_facts c0 Hc0) as (_ & Hsp & _ & Hplus & Hminus & _).
  cbn [Hex.skip_space]. rewrite Hsp, Hplus, Hminus.
  cbn [Hex.skip_space]. rewrite Hsp.
  assert (Hstart :
    match t with
    | String c1 t' =>
        if Hex.is_char c0 48 && (Hex.is_char c1 120 || Hex.is_char c1 88)
        then t' else String c0 t
    | EmptyString => String c0 t
    end = String c0 t).
  { destruct t as [| c1 t']; [done |].
    simpl in Ht. apply andb_true_iff in Ht as [Hc1 _].
    pose proof (lower_digit_facts c1 Hc1) as (_ & _ & _ & _ & _ & Hx & HX & _).
    rewrite Hx, HX, andb_false_r. done. }
  rewrite Hstart, Hscan. simpl. f_equal. lia.
Qed.

(** ** The [UUID] value object *)

Lemma UUID_eq (u v : uuid.UUID) : uuid.int u = uuid.int v → u = v.
Proof.
  destruct u as [n Hn], v as [m Hm]. simpl. intros ->.
  f_equal. apply (proof_irrel _).
Qed.

Lemma int_bounds (u : uuid.UUID) : 0 <= uuid.int u < 2 ^ 128.
Proof.
  destruct u as [n Hn]. simpl. unfold uuid.in_range in Hn.
  apply andb_true_iff in Hn as [H0 H1].
  apply Z.leb_le in H0. apply Z.ltb_lt in H1. done.
Qed.

Lemma of_int_int (u : uuid.UUID) : uuid.of_int (uuid.int u) = Ok u.
Proof.
  unfold uuid.of_int.
  destruct (Bool.bool_dec (uuid.in_range (uuid.int u)) true) as [H | H].
  - f_equal. by apply UUID_eq.
  - destruct u as [n Hn]. done.
Qed.

Lemma of_int_out_of_range (n : Z) :
  uuid.in_range n = false → uuid.of_int n = Raise ValueError.
Proof.
  intros Hn. unfold uuid.of_int.
  destruct (Bool.bool_dec (uuid.in_range n) true) as [H | H]; [congruence | done].
Qed.

Lemma get_hex_spec (u : uuid.UUID) :
  String.length (uuid.get_hex u) = 32%nat ∧
  Str.all Hex.is_lower_digit (uuid.get_hex u) = true ∧
  Hex.scan 0 (uuid.get_hex u) = (uuid.int u, EmptyString).
Proof. apply (format_spec 31). apply int_bounds. Qed.

(** A string of 32 small hexadecimal digits is read by [UUID(hex)] as the
    number it spells. *)
Lemma of_hex_lower_digits (h : string) (z : Z) :
  String.length h = 32%nat →
  Str.all Hex.is_lower_digit h = true →
  Hex.scan 0 h = (z, EmptyString) →
  uuid.of_hex h = uuid.of_int z.
Proof.
  intros Hlen Hall Hscan. unfold uuid.of_hex.
  assert (Hu : Str.all (fun c => negb (Ascii.eqb "u" c)) h = true).
  { revert Hall. apply all_impl. intros c Hc.
    apply lower_digit_facts in Hc as (_ & _ & _ & _ & _ & _ & _ & _ & Hu & _).
    apply negb_true_iff, Ascii.eqb_neq. congruence. }
  assert (Hd : Str.all (fun c => negb (Ascii.eqb "-" c)) h = true).
  { revert Hall. apply all_impl. intros c Hc.
    apply lower_digit_facts in Hc as (_ & _ & _ & _ & _ & _ & _ & _ & _ & Hd).
    apply negb_true_iff, Ascii.eqb_neq. congruence. }
  assert (Hb : Str.all (fun c => negb (Str.mem c "{}")) h = true).
  { revert Hall. apply all_impl. intros c Hc.
    apply lower_digit_facts in Hc as (_ & _ & _ & _ & _ & _ & _ & Hb & _).
    by rewrite Hb. }
  rewrite (replace_absent "u" "rn:" "" h) by done.
  rewrite (replace_absent "u" "uid:" "" h) by done.
  assert (Hstrip : Str.strip "{}" h = h).
  { unfold Str.strip. destruct h as [| c t]; [done |].
    rewrite lstrip_head; [by apply rstrip_none |].
    simpl in Hb. apply andb_true_iff in Hb as [Hc _].
    by apply negb_true_iff in Hc. }
  rewrite Hstrip, (replace_absent "-") by done.
  rewrite Hlen. cbn [Nat.eqb negb].
  rewrite (long16_lower_digits h z); [done | | done | done].
  intros ->. discriminate Hlen.
Qed.

Lemma of_hex_get_hex (u : uuid.UUID) : uuid.of_hex (uuid.get_hex u) = Ok u.
Proof.
  destruct (get_hex_spec u) as (Hlen & Hall & Hscan).
  rewrite (of_hex_lower_digits _ _ Hlen Hall Hscan). apply of_int_int.
Qed.

(** ** Bytes *)

Lemma be_int_acc (s : string) (a : Z) :
  be_int a s = a * 256 ^ Z.of_nat (String.length s) + be_int 0 s.
Proof.
  revert a. induction s as [| c t IH]; intros a.
  - simpl. lia.
  - cbn [be_int String.length]. rewrite (IH (a * 256 + _)), (IH (0 * 256 + _)).
    rewrite Nat2Z.inj_succ, Z.pow_succ_r by lia. lia.
Qed.

Lemma scan_acc (s : string) (a : Z) :
  Str.all Hex.is_lower_digit s = true →
  Hex.scan a s = (a * 16 ^ Z.of_nat (String.length s) + (Hex.scan 0 s).1, EmptyString).
Proof.
  revert a. induction s as [| c t IH]; intros a.
  - intros _. simpl. f_equal. lia.
  - intros [Hc Ht]%andb_true_iff.
    destruct (lower_digit_is_digit c Hc) as [d Hd].
    cbn [Hex.scan String.length]. rewrite Hd.
    rewrite (IH (a * 16 + d)), (IH (0 * 16 + d)) by done.
    cbn [fst]. f_equal.
    rewrite Nat2Z.inj_succ, Z.pow_succ_r by lia. lia.
Qed.

Lemma scan_app (s rest : string) (a : Z) :
  Str.all Hex.is_lower_digit s = true →
  Hex.scan a (s +:+ rest) = Hex.scan (Hex.scan a s).1 rest.
Proof.
  revert a. induction s as [| c t IH]; intros a; [done |].
  intros [Hc Ht]%andb_true_iff.
  destruct (lower_digit_is_digit c Hc) as [d Hd].
  change (String c t +:+ rest) with (String c (t +:+ rest)).
  cbn [Hex.scan]. rewrite Hd. by apply IH.
Qed.

Lemma format_byte (c : ascii) :
  String.length (Hex.format 2 (Str.ord c)) = 2%nat ∧
  Str.all Hex.is_lower_digit (Hex.format 2 (Str.ord c)) = true ∧
  Hex.scan 0 (Hex.format 2 (Str.ord c)) = (Str.ord c, EmptyString).
Proof. apply (format_spec 1). pose proof (ord_range c). lia. Qed.

Lemma ords_hex_lower (bytes : string) :
  Str.all Hex.is_lower_digit (uuid.ords_hex bytes) = true.
Proof.
  induction bytes as [| c t IH]; [done |].
  cbn [uuid.ords_hex]. rewrite all_app, IH.
  destruct (format_byte c) as (_ & -> & _). done.
Qed.

Lemma ords_hex_length (bytes : string) :
  String.length (uuid.ords_hex bytes) = (2 * String.length bytes)%nat.
Proof.
  induction bytes as [| c t IH]; [done |].
  cbn [uuid.ords_hex String.length]. rewrite length_app, IH.
  destruct (format_byte c) as (-> & _). lia.
Qed.

Lemma scan_ords_hex (bytes : string) (a : Z) :
  Hex.scan a (uuid.ords_hex bytes) = (be_int a bytes, EmptyString).
Proof.
  revert a. induction bytes as [| c t IH]; intros a; [done |].
  destruct (format_byte c) as (Hlen & Hall & Hscan).
  cbn [uuid.ords_hex be_int]. rewrite scan_app by done.
  rewrite (scan_acc (Hex.format 2 (Str.ord c))) by done.
  rewrite Hlen, Hscan. cbn [fst]. apply IH.
Qed.

(** [UUID(bytes=b)] reads 16 bytes as the number they spell. *)
Lemma of_bytes_be_int (bytes : string) :
  String.length bytes = 16%nat →
  uuid.of_bytes bytes = uuid.of_int (be_int 0 bytes).
Proof.
  intros Hlen. unfold uuid.of_bytes. rewrite Hlen. cbn [Nat.eqb negb].
  rewrite (long16_lower_digits _ (be_int 0 bytes)); [done | | |].
  - intros Hempty. pose proof (ords_hex_length bytes) as H.
    rewrite Hempty, Hlen in H. discriminate H.
  - apply ords_hex_lower.
  - apply scan_ords_hex.
Qed.

Lemma bytes_upto_S (n : Z) (k : nat) :
  bytes_upto n (S k)
  = String (Str.chr (Z.land (Z.shiftr n (8 * Z.of_nat k)) 255)) (bytes_upto n k).
Proof.
  unfold bytes_upto. rewrite seq_S, map_app, fold_left_app. done.
Qed.

Lemma bytes_upto_spec (n : Z) (k : nat) :
  0 <= n →
  String.length (bytes_upto n k) = k ∧
  be_int 0 (bytes_upto n k) = n mod 256 ^ Z.of_nat k.
Proof.
  intros Hn. induction k as [| k [IHlen IHval]].
  - split; [done |]. simpl. by rewrite Z.mod_1_r.
  - rewrite bytes_upto_S. cbn [String.length be_int]. split; [congruence |].
    rewrite be_int_acc, IHlen, IHval.
    rewrite Z.shiftr_div_pow2 by lia.
    change 255 with (Z.ones 8). rewrite Z.land_ones by lia.
    change (2 ^ 8) with 256.
    replace (2 ^ (8 * Z.of_nat k)) with (256 ^ Z.of_nat k)
      by (change 256 with (2 ^ 8); rewrite <- Z.pow_mul_r; lia).
    assert (Hp : 0 < 256 ^ Z.of_nat k) by (apply Z.pow_pos_nonneg; lia).
    rewrite ord_chr by (apply Z.mod_pos_bound; lia).
    rewrite Nat2Z.inj_succ, Z.pow_succ_r by lia.
    rewrite (Z.mul_comm 256), Z.rem_mul_r by lia. lia.
Qed.

Lemma get_bytes_spec (u : uuid.UUID) :
  String.length (uuid.get_bytes u) = 16%nat ∧
  be_int 0 (uuid.get_bytes u) = uuid.int u.
Proof.
  pose proof (int_bounds u) as Hu.
  destruct (bytes_upto_spec (uuid.int u) 16) as [Hlen Hval]; [lia |].
  change (uuid.get_bytes u) with (bytes_upto (uuid.int u) 16).
  split; [done |]. rewrite Hval.
  apply Z.mod_small. change (256 ^ Z.of_nat 16) with (2 ^ 128). done.
Qed.

Lemma of_bytes_get_bytes (u : uuid.UUID) :
  uuid.of_bytes (uuid.get_bytes u) = Ok u.
Proof.
  destruct (get_bytes_spec u) as [Hlen Hval].
  rewrite of_bytes_be_int, Hval by done. apply of_int_int.
Qed.

(** ** The constructor *)

Lemma bind_positional_keeps (args : list PyVal) :
  ∀ (ps : list string) (kwargs bound : gmap string PyVal) (k : string) (v : PyVal),
  Field.bind_positional ps args kwargs = Ok bound →
  kwargs !! k = Some v → bound !! k = Some v.
Proof.
  induction args as [| a args IH]; intros ps kwargs bound k v Hbind Hk.
  - destruct ps; simpl in Hbind; congruence.
  - destruct ps as [| p ps]; simpl in Hbind; [discriminate |].
    destruct (kwargs !! p) eqn:Hp; [discriminate |].
    eapply IH; [exact Hbind |].
    rewrite lookup_insert_ne; [done |]. congruence.
Qed.

Lemma bind_positional_error (args : list PyVal) :
  ∀ (ps : list string) (kwargs : gmap string PyVal) (e : PyExc),
  Field.bind_positional ps args kwargs = Raise e → e = TypeError.
Proof.
  induction args as [| a args IH]; intros ps kwargs e Hbind.
  - destruct ps; discriminate.
  - destruct ps as [| p ps]; simpl in Hbind; [congruence |].
    destruct (kwargs !! p); [congruence | eauto].
Qed.

Lemma bind_keeps (args : list PyVal) (kwargs bound : gmap string PyVal)
    (k : string) (v : PyVal) :
  Field.bind args kwargs = Ok bound → kwargs !! k = Some v →
  Field.get bound k PNone = v ∧ bound !! k = Some v.
Proof.
  unfold Field.bind, Field.get. intros Hbind Hk.
  destruct (Field.known_keywords kwargs); [| discriminate].
  rewrite (bind_positional_keeps _ _ _ _ _ _ Hbind Hk). done.
Qed.

Lemma bind_error (args : list PyVal) (kwargs : gmap string PyVal) (e : PyExc) :
  Field.bind args kwargs = Raise e → e = TypeError.
Proof.
  unfold Field.bind. destruct (Field.known_keywords kwargs).
  - apply bind_positional_error.
  - congruence.
Qed.

Lemma base_kwargs_max_length (a : UUIDField.InitArgs) :
  UUIDField.base_kwargs a !! "max_length" = Some (PInt 32).
Proof.
  unfold UUIDField.base_kwargs. destruct (UUIDField.arg_auto a).
  - rewrite !lookup_insert_ne by done. apply lookup_insert_eq.
  - apply lookup_insert_eq.
Qed.

Lemma base_kwargs_auto (a : UUIDField.InitArgs) :
  UUIDField.arg_auto a = true →
  UUIDField.base_kwargs a !! "editable" = Some (PBool false) ∧
  UUIDField.base_kwargs a !! "blank" = Some (PBool true) ∧
  UUIDField.base_kwargs a !! "unique" = Some (PBool true).
Proof.
  intros Ha. unfold UUIDField.base_kwargs. rewrite Ha. repeat split.
  - rewrite !lookup_insert_ne by done. apply lookup_insert_eq.
  - rewrite lookup_insert_ne by done. apply lookup_insert_eq.
  - apply lookup_insert_eq.
Qed.

(** What a successful construction has done. *)
Lemma init_inv (a : UUIDField.InitArgs) (self : UUIDField.t) :
  UUIDField.__init__ a = Ok self →
  UUIDField.supported (UUIDField.arg_version a) = true ∧
  UUIDField.auto self = UUIDField.arg_auto a ∧
  UUIDField.version self = UUIDField.arg_version a ∧
  ∃ bound, Field.bind (UUIDField.arg_args a) (UUIDField.base_kwargs a) = Ok bound ∧
    UUIDField.max_length self = Field.get bound "max_length" PNone ∧
    UUIDField.editable self = Field.get bound "editable" (PBool true) ∧
    UUIDField.blank self = Field.get bound "blank" (PBool false) ∧
    UUIDField._unique self = Field.get bound "unique" (PBool false).
Proof.
  unfold UUIDField.__init__.
  destruct (UUIDField.supported (UUIDField.arg_version a)); [| discriminate].
  cbn [negb].
  destruct (UUIDField.arg_version a =? 1);
    destruct ((UUIDField.arg_version a =? 3) || (UUIDField.arg_version a =? 5));
    (destruct (Field.bind _ _) as [bound | e] eqn:Hb; [| discriminate]);
    intros [= <-]; cbn; eauto 10.
Qed.

Lemma init_max_length (a : UUIDField.InitArgs) (self : UUIDField.t) :
  UUIDField.__init__ a = Ok self → UUIDField.max_length self = PInt 32.
Proof.
  intros (_ & _ & _ & bound & Hb & -> & _)%init_inv.
  apply (bind_keeps _ _ _ _ _ Hb (base_kwargs_max_length a)).
Qed.

Lemma supported_iff (v : Z) :
  UUIDField.supported v = true ↔ v = 1 ∨ v = 3 ∨ v = 4 ∨ v = 5.
Proof.
  unfold UUIDField.supported.
  rewrite !orb_true_iff, !Z.eqb_eq. tauto.
Qed.

(** C8. Construction raises the assertion error exactly when [version] is
    none of 1, 3, 4, 5, whatever the other arguments are; with a supported
    version it does not raise it. *)
Theorem init_version_check (a : UUIDField.InitArgs) :
  UUIDField.__init__ a = Raise AssertionError
  ↔ ¬ (UUIDField.arg_version a = 1 ∨ UUIDField.arg_version a = 3 ∨
       UUIDField.arg_version a = 4 ∨ UUIDField.arg_version a = 5).
Proof.
  rewrite <- supported_iff. unfold UUIDField.__init__.
  destruct (UUIDField.supported (UUIDField.arg_version a)); cbn [negb].
  - split; [| congruence]. intros Hinit. exfalso.
    destruct (UUIDField.arg_version a =? 1);
      destruct ((UUIDField.arg_version a =? 3) || (UUIDField.arg_version a =? 5));
      (destruct (Field.bind _ _) as [bound | e] eqn:Hb; [discriminate Hinit |]);
      apply bind_error in Hb; subst e; discriminate Hinit.
  - split; [congruence | done].
Qed.

(** C9. A constructed field has [max_length] 32 whatever the caller passed,
    and when [auto] is true it is not editable, may be blank and is
    unique. *)
Theorem init_declares (a : UUIDField.InitArgs) (self : UUIDField.t) :
  UUIDField.__init__ a = Ok self →
  UUIDField.max_length self = PInt 32 ∧
  (UUIDField.auto self = true →
   UUIDField.editable self = PBool false ∧
   UUIDField.blank self = PBool true ∧
   UUIDField.unique self = PBool true).
Proof.
  intros Hinit. split; [by apply (init_max_length a) |].
  apply init_inv in Hinit
    as (_ & Hauto & _ & bound & Hb & _ & He & Hbl & Hu).
  rewrite Hauto. intros Ha.
  destruct (base_kwargs_auto a Ha) as (Ke & Kb & Ku).
  destruct (bind_keeps _ _ _ _ _ Hb Ke) as [_ Le].
  destruct (bind_keeps _ _ _ _ _ Hb Kb) as [_ Lb].
  destruct (bind_keeps _ _ _ _ _ Hb Ku) as [_ Lu].
  unfold UUIDField.unique. rewrite He, Hbl, Hu.
  unfold Field.get. rewrite Le, Lb, Lu. done.
Qed.

Lemma init_declares_witness :
  UUIDField.__init__ auto_args = Ok unbound_auto_field ∧
  UUIDField.max_length unbound_auto_field = PInt 32 ∧
  (UUIDField.auto unbound_auto_field = true →
   UUIDField.editable unbound_auto_field = PBool false ∧
   UUIDField.blank unbound_auto_field = PBool true ∧
   UUIDField.unique unbound_auto_field = PBool true).
Proof.
  split; [vm_compute; reflexivity |].
  apply (init_declares auto_args). vm_compute. reflexivity.
Defined.

(** C6. On a constructed field [db_type] is decided by the vendor string of
    the connection alone: [uuid] when it contains [postgres], else
    [binary(16)] when it contains [mysql], else [char(32)], which is also
    the answer without a connection. *)
Theorem db_type_by_vendor (a : UUIDField.InitArgs) (self : UUIDField.t) :
  UUIDField.__init__ a = Ok self →
  (∀ c, Str.contains "postgres" (vendor c) = true →
        UUIDField.db_type self (Some c) = "uuid") ∧
  (∀ c, Str.contains "postgres" (vendor c) = false →
        Str.contains "mysql" (vendor c) = true →
        UUIDField.db_type self (Some c) = "binary(16)") ∧
  (∀ c, Str.contains "postgres" (vendor c) = false →
        Str.contains "mysql" (vendor c) = false →
        UUIDField.db_type self (Some c) = "char(32)") ∧
  UUIDField.db_type self None = "char(32)" ∧
  (∀ c1 c2, vendor c1 = vendor c2 →
        UUIDField.db_type self (Some c1) = UUIDField.db_type self (Some c2)).
Proof.
  intros Hinit. apply init_max_length in Hinit.
  unfold UUIDField.db_type, UUIDField.vendor_has. rewrite Hinit.
  repeat split.
  - by intros c ->.
  - by intros c -> ->.
  - by intros c -> ->.
  - by intros c1 c2 ->.
Qed.

Lemma db_type_by_vendor_witness :
  UUIDField.__init__ auto_args = Ok unbound_auto_field ∧
  UUIDField.db_type unbound_auto_field postgresql = "uuid" ∧
  UUIDField.db_type unbound_auto_field mysql = "binary(16)" ∧
  UUIDField.db_type unbound_auto_field sqlite = "char(32)".
Proof.
  assert (Hinit : UUIDField.__init__ auto_args = Ok unbound_auto_field)
    by (vm_compute; reflexivity).
  destruct (db_type_by_vendor auto_args unbound_auto_field Hinit)
    as (Hpg & Hmy & Hother & _).
  split; [exact Hinit |]. split; [| split].
  - apply Hpg. reflexivity.
  - apply Hmy; reflexivity.
  - apply Hother; reflexivity.
Defined.

(** ** Conversions *)

Lemma db_is_binary_iff (self : UUIDField.t) (connection : option Connection) :
  UUIDField._db_is_binary self connection = true
  ↔ UUIDField.db_type self connection = "binary(16)".
Proof. unfold UUIDField._db_is_binary. apply String.eqb_eq. Qed.

Lemma truthy_str (s : string) :
  String.length s ≠ 0%nat → truthy (PStr s) = true.
Proof. destruct s; [done |]. intros _. done. Qed.

Lemma to_python_str16 (self : UUIDField.t) (s : string) :
  String.length s = 16%nat →
  UUIDField.to_python self (PStr s) = UUID_of_bytes (PStr s).
Proof.
  intros Hlen. unfold UUIDField.to_python.
  rewrite truthy_str by lia. cbn [negb isinstance_UUID py_len mbind Result_bind].
  unfold Str.len. rewrite Hlen. done.
Qed.

Lemma to_python_str_other (self : UUIDField.t) (s : string) :
  String.length s ≠ 0%nat → String.length s ≠ 16%nat →
  UUIDField.to_python self (PStr s) = UUID_of_hex (PStr s).
Proof.
  intros H0 H16. unfold UUIDField.to_python.
  rewrite truthy_str by done. cbn [negb isinstance_UUID py_len mbind Result_bind].
  unfold Str.len. destruct (Z.eqb_spec (Z.of_nat (String.length s)) 16); [lia | done].
Qed.

(** The outbound conversion followed by the inbound one gives any [UUID]
    back, under every connection. *)
Lemma roundtrip (self : UUIDField.t) (u : uuid.UUID)
    (connection : option Connection) :
  UUIDField.get_db_prep_value self (PUUID u) connection
    ≫= UUIDField.to_python self = Ok (PUUID u).
Proof.
  unfold UUIDField.get_db_prep_value.
  destruct (UUIDField._db_is_binary self connection); cbn [mbind Result_bind].
  - destruct (get_bytes_spec u) as [Hlen _].
    rewrite to_python_str16 by done. cbn [UUID_of_bytes].
    rewrite of_bytes_get_bytes. done.
  - destruct (get_hex_spec u) as [Hlen _].
    rewrite to_python_str_other by (rewrite Hlen; done). cbn [UUID_of_hex].
    rewrite of_hex_get_hex. done.
Qed.

(** C2. A value that [_create_uuid] has produced comes back from
    [to_python] after [get_db_prep_value], equal to itself, under every
    connection, whether it stores text or 16 bytes. *)
Theorem roundtrip_created {World : Type} {G : Generators World}
    (self : UUIDField.t) (w w' : World) (v : uuid.UUID)
    (connection : option Connection) :
  UUIDField._create_uuid self w = (Ok v, w') →
  UUIDField.get_db_prep_value self (PUUID v) connection
    ≫= UUIDField.to_python self = Ok (PUUID v).
Proof. intros _. apply roundtrip. Qed.

Lemma roundtrip_created_witness :
  UUIDField._create_uuid auto_field [Ok sample_v4] = (Ok sample_v4, []) ∧
  UUIDField.get_db_prep_value auto_field (PUUID sample_v4) mysql
    ≫= UUIDField.to_python auto_field = Ok (PUUID sample_v4).
Proof.
  split; [reflexivity |].
  apply (roundtrip_created auto_field [Ok sample_v4] [] sample_v4 mysql).
  reflexivity.
Defined.

(** C4. A [UUID] object is sent as its 16 bytes, most significant first,
    when the column type is [binary(16)], and otherwise as its 32 small
    hexadecimal digits, which hold no dash. *)
Theorem get_db_prep_value_uuid (self : UUIDField.t) (u : uuid.UUID)
    (connection : option Connection) :
  (UUIDField.db_type self connection = "binary(16)" →
   UUIDField.get_db_prep_value self (PUUID u) connection
   = Ok (PStr (uuid.get_bytes u))) ∧
  (UUIDField.db_type self connection ≠ "binary(16)" →
   UUIDField.get_db_prep_value self (PUUID u) connection
   = Ok (PStr (uuid.get_hex u))) ∧
  String.length (uuid.get_bytes u) = 16%nat ∧
  be_int 0 (uuid.get_bytes u) = uuid.int u ∧
  String.length (uuid.get_hex u) = 32%nat ∧
  Str.all Hex.is_lower_digit (uuid.get_hex u) = true ∧
  Hex.scan 0 (uuid.get_hex u) = (uuid.int u, EmptyString).
Proof.
  destruct (get_bytes_spec u) as [Hb1 Hb2].
  destruct (get_hex_spec u) as (Hh1 & Hh2 & Hh3).
  repeat split; try done; unfold UUIDField.get_db_prep_value.
  - intros Hbin%db_is_binary_iff. by rewrite Hbin.
  - intros Hbin. destruct (UUIDField._db_is_binary self connection) eqn:E; [| done].
    by apply db_is_binary_iff in E.
Qed.

(** C10. A value that is neither a [UUID] object nor a string, [None] for
    one, makes [get_db_prep_value] raise at [value.lower()], under every
    connection. *)
Theorem get_db_prep_value_other (self : UUIDField.t) (value : PyVal)
    (connection : option Connection) :
  isinstance_UUID value = false →
  isinstance_str value = false →
  UUIDField.get_db_prep_value self value connection = Raise AttributeError
  ∧ py_lower value = Raise AttributeError.
Proof.
  intros Hu Hs. unfold UUIDField.get_db_prep_value.
  destruct value as [| b | n | s | u]; done.
Qed.

Lemma get_db_prep_value_other_witness :
  UUIDField.get_db_prep_value auto_field PNone mysql = Raise AttributeError
  ∧ py_lower PNone = Raise AttributeError.
Proof. apply get_db_prep_value_other; reflexivity. Defined.

Lemma be_int_bound (s : string) :
  0 <= be_int 0 s < 256 ^ Z.of_nat (String.length s).
Proof.
  induction s as [| c t IH]; [simpl; lia |].
  cbn [be_int String.length]. rewrite be_int_acc.
  rewrite Nat2Z.inj_succ, Z.pow_succ_r by lia.
  pose proof (ord_range c). nia.
Qed.

Lemma scan_bound (s : string) :
  ∀ a, 0 <= a →
  0 <= (Hex.scan a s).1 < (a + 1) * 16 ^ Z.of_nat (String.length s).
Proof.
  induction s as [| c t IH]; intros a Ha; [simpl; lia |].
  cbn [Hex.scan String.length].
  rewrite Nat2Z.inj_succ, Z.pow_succ_r by lia.
  assert (Hp : 0 < 16 ^ Z.of_nat (String.length t)) by (apply Z.pow_pos_nonneg; lia).
  destruct (Hex.digit_val c) as [d |] eqn:Hd.
  - assert (Hdr : 0 <= d < 16).
    { unfold Hex.digit_val in Hd. pose proof (ord_range c).
      repeat match type of Hd with
             | (if ?b then _ else _) = _ => destruct b eqn:?
             end; inversion Hd; lia. }
    specialize (IH (a * 16 + d) ltac:(lia)). nia.
  - simpl. nia.
Qed.

Lemma replace_dash_none (s : string) :
  Str.all (fun c => negb (Ascii.eqb "-" c)) (Str.replace "-" "" s) = true.
Proof.
  unfold Str.replace. induction s as [| c t IH]; [done |].
  cbn [Str.replace_from String.prefix String.length Nat.sub].
  destruct (ascii_dec "-" c) as [<- | Hne].
  - destruct t; exact IH.
  - cbn [Str.all]. rewrite IH, andb_true_r.
    apply negb_true_iff, Ascii.eqb_neq. done.
Qed.

Lemma long16_error (s : string) (e : PyExc) :
  Hex.long16 s = Raise e → e = ValueError.
Proof.
  unfold Hex.long16.
  repeat match goal with
         | |- context [if ?b then _ else _] => destruct b
         | |- context [match ?x with _ => _ end] => destruct x
         end; congruence.
Qed.

(** ** The dashed spelling *)

Lemma all_substring (p : ascii → bool) (s : string) :
  Str.all p s = true → ∀ n m, Str.all p (substring n m s) = true.
Proof.
  induction s as [| c t IH]; intros Hall n m.
  - destruct n, m; done.
  - cbn [Str.all] in Hall. apply andb_true_iff in Hall as [Hc Ht].
    destruct n as [| n]; [destruct m as [| m] |]; cbn [substring Str.all].
    + done.
    + by rewrite Hc, (IH Ht 0%nat m).
    + by apply IH.
Qed.

Lemma lstrip_none (chars s : string) :
  Str.all (fun c => negb (Str.mem c chars)) s = true → Str.lstrip chars s = s.
Proof.
  destruct s as [| c t]; [done |].
  intros [Hc _]%andb_true_iff. apply lstrip_head. by apply negb_true_iff.
Qed.

Lemma replace_dash_app (a b : string) :
  Str.all (fun c => negb (Ascii.eqb "-" c)) a = true →
  Str.replace "-" "" (a +:+ b) = a +:+ Str.replace "-" "" b.
Proof.
  unfold Str.replace. induction a as [| c t IH]; [done |].
  intros [Hc Ht]%andb_true_iff.
  change (String c t +:+ b) with (String c (t +:+ b)).
  cbn [Str.replace_from String.prefix].
  destruct (ascii_dec "-" c) as [<- | Hne].
  - rewrite Ascii.eqb_refl in Hc. discriminate.
  - rewrite IH by done. done.
Qed.

Lemma replace_dash_head (b : string) :
  Str.replace "-" "" (String "-" b) = Str.replace "-" "" b.
Proof. unfold Str.replace. cbn. by destruct b. Qed.

Lemma substrings_32 (h : string) :
  String.length h = 32%nat →
  substring 0 8 h +:+ substring 8 4 h +:+ substring 12 4 h
  +:+ substring 16 4 h +:+ substring 20 12 h = h.
Proof.
  intros Hlen.
  do 32 (destruct h as [| ? h]; [discriminate Hlen |]).
  destruct h; [reflexivity | discriminate Hlen].
Qed.

(** [UUID(hex)] reads the dashed spelling of a [UUID] as that [UUID]. *)
Lemma of_hex_str (u : uuid.UUID) : uuid.of_hex (UUID_str u) = Ok u.
Proof.
  destruct (get_hex_spec u) as (Hlen & Hall & Hscan).
  rewrite <- (of_hex_get_hex u).
  unfold UUID_str. set (h := uuid.get_hex u) in *.
  assert (Hu : Str.all (fun c => negb (Ascii.eqb "u" c)) h = true).
  { revert Hall. apply all_impl. intros c Hc.
    apply lower_digit_facts in Hc as (_ & _ & _ & _ & _ & _ & _ & _ & Hu & _).
    apply negb_true_iff, Ascii.eqb_neq. congruence. }
  assert (Hd : Str.all (fun c => negb (Ascii.eqb "-" c)) h = true).
  { revert Hall. apply all_impl. intros c Hc.
    apply lower_digit_facts in Hc as (_ & _ & _ & _ & _ & _ & _ & _ & _ & Hd).
    apply negb_true_iff, Ascii.eqb_neq. congruence. }
  assert (Hb : Str.all (fun c => negb (Str.mem c "{}")) h = true).
  { revert Hall. apply all_impl. intros c Hc.
    apply lower_digit_facts in Hc as (_ & _ & _ & _ & _ & _ & _ & Hb & _).
    by rewrite Hb. }
  set (d := substring 0 8 h +:+ "-" +:+ substring 8 4 h +:+ "-"
            +:+ substring 12 4 h +:+ "-" +:+ substring 16 4 h +:+ "-"
            +:+ substring 20 12 h).
  assert (Hdu : Str.all (fun c => negb (Ascii.eqb "u" c)) d = true).
  { subst d. rewrite !all_app, !(all_substring _ h Hu). done. }
  assert (Hdb : Str.all (fun c => negb (Str.mem c "{}")) d = true).
  { subst d. rewrite !all_app, !(all_substring _ h Hb). done. }
  assert (Hdd : Str.replace "-" "" d = h).
  { subst d.
    repeat (rewrite replace_dash_app by apply (all_substring _ h Hd);
            change ("-" +:+ ?x) with (String "-"%char x);
            rewrite replace_dash_head).
    rewrite (replace_absent "-") by apply (all_substring _ h Hd).
    by apply substrings_32. }
  unfold uuid.of_hex.
  rewrite (replace_absent "u" "rn:" "" d), (replace_absent "u" "uid:" "" d) by done.
  rewrite (replace_absent "u" "rn:" "" h), (replace_absent "u" "uid:" "" h) by done.
  unfold Str.strip.
  rewrite (lstrip_none _ d), (rstrip_none _ d), Hdd by done.
  rewrite (lstrip_none _ h), (rstrip_none _ h) by done.
  rewrite (replace_absent "-" "" "" h) by done. done.
Qed.

Example auto_field_init :
  UUIDField.__init__ auto_args = Ok unbound_auto_field.
Proof. vm_compute. reflexivity. Qed.

(** ** What [uuid.UUID] takes and what it refuses *)

Lemma of_int_error (n : Z) (e : PyExc) :
  uuid.of_int n = Raise e → e = ValueError.
Proof.
  unfold uuid.of_int. destruct (Bool.bool_dec _ _); congruence.
Qed.

Lemma of_hex_error (s : string) (e : PyExc) :
  uuid.of_hex s = Raise e → e = ValueError.
Proof.
  unfold uuid.of_hex. destruct (negb _); [congruence |].
  destruct (Hex.long16 _) as [z | e'] eqn:Hlong; cbn [mbind Result_bind].
  - apply of_int_error.
  - intros [= <-]. by apply long16_error in Hlong.
Qed.


Lemma of_bytes_16 (s : string) :
  String.length s = 16%nat →
  ∃ u, uuid.of_bytes s = Ok u ∧ uuid.int u = be_int 0 s.
Proof.
  intros Hlen. rewrite of_bytes_be_int by done.
  pose proof (be_int_bound s) as Hb. rewrite Hlen in Hb.
  change (256 ^ Z.of_nat 16) with (2 ^ 128) in Hb.
  assert (Hr : uuid.in_range (be_int 0 s) = true).
  { unfold uuid.in_range. apply andb_true_iff.
    split; [apply Z.leb_le | apply Z.ltb_lt]; lia. }
  exists (uuid.mkUUID (be_int 0 s) Hr). split; [| done].
  apply (of_int_int (uuid.mkUUID (be_int 0 s) Hr)).
Qed.







Lemma replace_dash_drop (s : string) :
  Str.replace "-" "" s = drop_dashes s.
Proof.
  unfold Str.replace. induction s as [| c t IH]; [done |].
  cbn [Str.replace_from String.prefix String.length Nat.sub drop_dashes].
  destruct (ascii_dec "-" c) as [<- | Hne].
  - cbn. destruct t; exact IH.
  - rewrite IH. destruct (Ascii.eqb_spec c "-"); [congruence | done].
Qed.





















(** ** Inbound conversion *)



(** Both spellings of a [UUID], with and without dashes, come in as that
    [UUID]. *)
Lemma to_python_spellings (self : UUIDField.t) (u : uuid.UUID) :
  UUIDField.to_python self (PStr (uuid.get_hex u)) = Ok (PUUID u) ∧
  UUIDField.to_python self (PStr (UUID_str u)) = Ok (PUUID u).
Proof.
  destruct (get_hex_spec u) as (Hlen & _).
  split.
  - rewrite to_python_str_other by (rewrite Hlen; done).
    cbn [UUID_of_hex]. by rewrite of_hex_get_hex.
  - assert (Hl : String.length (UUID_str u) = 36%nat).
    { unfold UUID_str. set (h := uuid.get_hex u) in *.
      do 32 (destruct h as [| ? h]; [discriminate Hlen |]).
      destruct h; [reflexivity | discriminate Hlen]. }
    rewrite to_python_str_other by (rewrite Hl; done).
    cbn [UUID_of_hex]. by rewrite of_hex_str.
Qed.

(** ** The hook before saving *)

(** C7. With [auto] set, on an insert, and a false value under the
    attribute, [pre_save] puts the [UUID] that [_create_uuid] made on the
    instance and returns its hex form (an exception of [_create_uuid]
    passes through and the instance stays as it was); in every other case
    it returns the value under the attribute and the instance stays as it
    was. *)
Theorem pre_save_spec {World : Type} {G : Generators World}
    (self : UUIDField.t) (att : string) (inst : gmap string PyVal)
    (add : bool) (w : World) :
  UUIDField.attname self = Some att →
  (UUIDField.auto self = true → add = true →
   truthy (default PNone (inst !! att)) = false →
     (∀ u w', UUIDField._create_uuid self w = (Ok u, w') →
        UUIDField.pre_save self inst add w
        = (Ok (PStr (uuid.get_hex u)), <[att := PUUID u]> inst, w')) ∧
     (∀ e w', UUIDField._create_uuid self w = (Raise e, w') →
        UUIDField.pre_save self inst add w = (Raise e, inst, w'))) ∧
  (UUIDField.auto self = false ∨ add = false ∨
   truthy (default PNone (inst !! att)) = true →
     UUIDField.pre_save self inst add w
     = (Ok (default PNone (inst !! att)), inst, w)).
Proof.
  intros Hatt. unfold UUIDField.pre_save. rewrite Hatt. cbn [UUIDField.getattr].
  split.
  - intros -> -> ->. cbn [andb negb]. split; intros ? w' ->; done.
  - intros [-> | [-> | ->]]; [done | by rewrite andb_false_r |].
    by rewrite !andb_false_r.
Qed.

Lemma pre_save_spec_witness :
  UUIDField.pre_save auto_field ∅ true [Ok sample_v4]
  = (Ok (PStr (uuid.get_hex sample_v4)), <["uuid" := PUUID sample_v4]> ∅, []).
Proof.
  assert (Hatt : UUIDField.attname auto_field = Some "uuid") by reflexivity.
  destruct (pre_save_spec auto_field "uuid" ∅ true [Ok sample_v4] Hatt)
    as [Hgen _].
  apply Hgen; reflexivity.
Defined.

(** ** Generation *)

(** What the validation of [_create_uuid] does catch on a version 3 or 5
    field: a [namespace] that is no [UUID] object, [None] included. *)
Lemma create_uuid_namespace_check {World : Type} {G : Generators World}
    (self : UUIDField.t) (name namespace : PyVal) (w : World) :
  UUIDField.version self = 3 ∨ UUIDField.version self = 5 →
  UUIDField.name self = Some name →
  UUIDField.namespace self = Some namespace →
  isinstance_UUID namespace = false →
  UUIDField._create_uuid self w = (Raise ValueError, w).
Proof.
  intros Hv Hname Hns Hnot.
  unfold UUIDField._create_uuid, UUIDField._create_uuid_args.
  rewrite Hname, Hns.
  destruct Hv as [-> | ->]; cbn; by rewrite Hnot.
Qed.

(** C1. On [UUIDField(version=3, namespace=uuid.NAMESPACE_DNS)], whose
    [name] is [None], the validation of [_create_uuid] raises nothing: the
    argument tuple is built and [uuid3] is called with the name [None]. *)
Theorem create_uuid_name_unset :
  ∃ self, UUIDField.__init__ v3_no_name_args = Ok self ∧
    UUIDField.name self = Some PNone ∧
    UUIDField._create_uuid_args self = Ok [PUUID uuid.NAMESPACE_DNS; PNone] ∧
    ∀ (World : Type) (G : Generators World) (w : World),
      UUIDField._create_uuid self w = uuid3 (PUUID uuid.NAMESPACE_DNS) PNone w.
Proof.
  eexists. split; [vm_compute; reflexivity |].
  split; [reflexivity |]. split; reflexivity.
Qed.

(** ** Outbound conversion of text *)

(** The textual branch as the code has it: the dashes go, the case stays. *)
Lemma get_db_prep_value_text (self : UUIDField.t) (s : string)
    (connection : option Connection) :
  UUIDField.get_db_prep_value self (PStr s) connection
  = if UUIDField._db_is_binary self connection
    then r ← Hex.unhexlify (Str.replace "-" "" s); Ok (PStr r)
    else Ok (PStr (Str.replace "-" "" s)).
Proof. reflexivity. Qed.

(** C3. Under a connection that stores text, a string in capitals is
    sent in capitals, so two spellings of one UUID that differ in case
    are sent as two different values. *)
Theorem get_db_prep_value_keeps_case (self : UUIDField.t) :
  UUIDField.get_db_prep_value self
    (PStr "ABCDEF01-2345-6789-ABCD-EF0123456789") sqlite
  = Ok (PStr "ABCDEF0123456789ABCDEF0123456789") ∧
  UUIDField.get_db_prep_value self
    (PStr "abcdef0123456789abcdef0123456789") sqlite
  = Ok (PStr "abcdef0123456789abcdef0123456789") ∧
  Str.replace "-" "" (Str.lower "ABCDEF01-2345-6789-ABCD-EF0123456789")
  = "abcdef0123456789abcdef0123456789".
Proof. repeat split; reflexivity. Qed.

(** * Further properties *)

(** ** Bytes and digits determine the number *)

Lemma chr_ord (c : ascii) : Str.chr (Str.ord c) = c.
Proof.
  unfold Str.chr, Str.ord. rewrite N2Z.id. apply ascii_N_embedding.
Qed.

Lemma ord_inj (c d : ascii) : Str.ord c = Str.ord d → c = d.
Proof. intros H. rewrite <- (chr_ord c), <- (chr_ord d). by rewrite H. Qed.

Lemma be_int_inj (s : string) :
  ∀ t, String.length s = String.length t → be_int 0 s = be_int 0 t → s = t.
Proof.
  induction s as [| c s IH]; intros [| d t] Hlen Hval; try done.
  cbn [be_int String.length] in *. injection Hlen as Hlen.
  rewrite (be_int_acc s), (be_int_acc t), <- Hlen in Hval.
  pose proof (be_int_bound s) as Hs. pose proof (be_int_bound t) as Ht.
  rewrite <- Hlen in Ht.
  pose proof (ord_range c). pose proof (ord_range d).
  assert (Hcd : Str.ord c = Str.ord d) by nia.
  f_equal; [by apply ord_inj |].
  apply IH; [done |]. rewrite Hcd in Hval. lia.
Qed.

Lemma lower_digit_char (c : ascii) (d : Z) :
  Hex.is_lower_digit c = true → Hex.digit_val c = Some d →
  c = Hex.digit_char d.
Proof.
  each_ascii c; vm_compute; intros H; try discriminate H;
    intros [= <-]; reflexivity.
Qed.

Lemma lower_digits_inj (s : string) :
  ∀ t, String.length s = String.length t →
  Str.all Hex.is_lower_digit s = true → Str.all Hex.is_lower_digit t = true →
  (Hex.scan 0 s).1 = (Hex.scan 0 t).1 → s = t.
Proof.
  induction s as [| c s IH]; intros [| d t] Hlen Hs Ht Hval; try done.
  cbn [Str.all] in Hs, Ht.
  apply andb_true_iff in Hs as [Hc Hs]. apply andb_true_iff in Ht as [Hd Ht].
  injection Hlen as Hlen.
  destruct (lower_digit_is_digit c Hc) as [x Hx].
  destruct (lower_digit_is_digit d Hd) as [y Hy].
  cbn [Hex.scan] in Hval. rewrite Hx, Hy in Hval.
  rewrite (scan_acc s), (scan_acc t), <- Hlen in Hval by done.
  cbn [fst] in Hval.
  pose proof (scan_bound s 0 ltac:(lia)) as Bs.
  pose proof (scan_bound t 0 ltac:(lia)) as Bt.
  rewrite <- Hlen in Bt.
  assert (Hxr : 0 <= x < 16 ∧ 0 <= y < 16).
  { pose proof (ord_range c). pose proof (ord_range d).
    unfold Hex.digit_val in Hx, Hy.
    split;
      [ repeat match type of Hx with
               | (if ?b then _ else _) = _ => destruct b eqn:?
               end; inversion Hx; lia
      | repeat match type of Hy with
               | (if ?b then _ else _) = _ => destruct b eqn:?
               end; inversion Hy; lia ]. }
  assert (Hxy : x = y) by nia. subst y.
  f_equal.
  - rewrite (lower_digit_char c x), (lower_digit_char d x); done.
  - apply IH; try done. lia.
Qed.

(** ['%02x' % ord(c)] is the two digits of the byte. *)
Lemma format_byte_digits (c : ascii) :
  Hex.format 2 (Str.ord c)
  = String (Hex.digit_char (Str.ord c / 16))
      (String (Hex.digit_char (Str.ord c mod 16)) EmptyString).
Proof. each_ascii c; reflexivity. Qed.

Lemma unhexlify_ords_hex (bytes : string) :
  Hex.unhexlify (uuid.ords_hex bytes) = Ok bytes.
Proof.
  induction bytes as [| c t IH]; [done |].
  cbn [uuid.ords_hex]. rewrite format_byte_digits.
  change (String ?a (String ?b EmptyString) +:+ ?r) with (String a (String b r)).
  cbn [Hex.unhexlify].
  pose proof (ord_range c) as Hc.
  rewrite !digit_char_val
    by (first [apply Z.mod_pos_bound; lia
              | split; [apply Z.div_pos; lia | apply Z.div_lt_upper_bound; lia]]).
  rewrite IH. cbn [mbind Result_bind].
  replace (Str.ord c / 16 * 16 + Str.ord c mod 16) with (Str.ord c)
    by (pose proof (Z.div_mod (Str.ord c) 16); lia).
  by rewrite chr_ord.
Qed.

(** The hex form of a [UUID] is its bytes written two digits each, so
    [unhexlify] turns the one into the other. *)
Lemma get_hex_ords_hex (u : uuid.UUID) :
  uuid.get_hex u = uuid.ords_hex (uuid.get_bytes u).
Proof.
  destruct (get_hex_spec u) as (Hlen & Hall & Hscan).
  destruct (get_bytes_spec u) as (Blen & Bval).
  apply lower_digits_inj.
  - rewrite Hlen, ords_hex_length, Blen. done.
  - done.
  - apply ords_hex_lower.
  - rewrite Hscan, scan_ords_hex, Bval. done.
Qed.

Lemma unhexlify_get_hex (u : uuid.UUID) :
  Hex.unhexlify (uuid.get_hex u) = Ok (uuid.get_bytes u).
Proof. rewrite get_hex_ords_hex. apply unhexlify_ords_hex. Qed.

(** ** Dashes and case *)

Lemma no_dash_mem (s : string) :
  Str.all (fun c => negb (Ascii.eqb "-" c)) s = true → Str.mem "-" s = false.
Proof.
  induction s as [| c t IH]; [done |].
  cbn [Str.all Str.mem]. intros [Hc Ht]%andb_true_iff.
  apply negb_true_iff in Hc. rewrite Hc, IH; done.
Qed.

Lemma get_hex_no_dash (u : uuid.UUID) :
  Str.all (fun c => negb (Ascii.eqb "-" c)) (uuid.get_hex u) = true.
Proof.
  destruct (get_hex_spec u) as (_ & Hall & _).
  revert Hall. apply all_impl. intros c Hc.
  apply lower_digit_facts in Hc as (_ & _ & _ & _ & _ & _ & _ & _ & _ & Hd).
  apply negb_true_iff, Ascii.eqb_neq. congruence.
Qed.

Lemma replace_dash_hex (u : uuid.UUID) :
  Str.replace "-" "" (uuid.get_hex u) = uuid.get_hex u.
Proof. apply (replace_absent "-"), get_hex_no_dash. Qed.

(** Without its dashes the dashed spelling is the hex form. *)
Lemma replace_dash_str (u : uuid.UUID) :
  Str.replace "-" "" (UUID_str u) = uuid.get_hex u.
Proof.
  destruct (get_hex_spec u) as (Hlen & _).
  pose proof (get_hex_no_dash u) as Hd.
  unfold UUID_str. set (h := uuid.get_hex u) in *.
  repeat (rewrite replace_dash_app by apply (all_substring _ h Hd);
          change ("-" +:+ ?x) with (String "-"%char x);
          rewrite replace_dash_head).
  rewrite (replace_absent "-") by apply (all_substring _ h Hd).
  by apply substrings_32.
Qed.

Lemma lower_char_digit (c : ascii) :
  Hex.digit_val (Str.lower_char c) = Hex.digit_val c.
Proof. each_ascii c; reflexivity. Qed.

Lemma lower_char_dash (c : ascii) :
  Ascii.eqb "-" (Str.lower_char c) = Ascii.eqb "-" c.
Proof. each_ascii c; reflexivity. Qed.

Lemma replace_dash_lower (s : string) :
  Str.replace "-" "" (Str.lower s) = Str.lower (Str.replace "-" "" s).
Proof.
  unfold Str.replace. induction s as [| c t IH]; [done |].
  cbn [Str.lower Str.replace_from String.prefix String.length Nat.sub].
  destruct (ascii_dec "-" (Str.lower_char c)) as [E1 | E1];
    destruct (ascii_dec "-" c) as [E2 | E2].
  - assert (Hp : ∀ x, String.prefix "" x = true) by (by intros []).
    rewrite !Hp. exact IH.
  - apply Ascii.eqb_eq in E1. rewrite lower_char_dash in E1.
    apply Ascii.eqb_eq in E1. done.
  - apply Ascii.eqb_eq in E2. rewrite <- lower_char_dash in E2.
    apply Ascii.eqb_eq in E2. done.
  - cbn [Str.lower]. by rewrite IH.
Qed.

(** Induction on strings two characters at a time. *)
Lemma string_pair_ind (P : string → Prop) :
  P EmptyString → (∀ c, P (String c EmptyString)) →
  (∀ c d t, P t → P (String c (String d t))) → ∀ s, P s.
Proof.
  intros H0 H1 H2 s.
  assert (H : P s ∧ ∀ c, P (String c s)); [| tauto].
  induction s as [| d t [IHt IHc]]; [split; done |].
  split; [apply IHc | intros c; by apply H2].
Qed.

Lemma unhexlify_lower (s : string) :
  Hex.unhexlify (Str.lower s) = Hex.unhexlify s.
Proof.
  induction s as [| c | c d t IH] using string_pair_ind; try done.
  cbn [Str.lower Hex.unhexlify]. by rewrite !lower_char_digit, IH.
Qed.

(** [unhexlify] takes the strings of an even number of digits and gives
    half as many bytes; every other string is a [TypeError]. *)
Lemma unhexlify_spec (s : string) :
  (Nat.even (String.length s) && Str.all Hex.is_digit s = true →
   ∃ r, Hex.unhexlify s = Ok r ∧ String.length s = (2 * String.length r)%nat) ∧
  (Nat.even (String.length s) && Str.all Hex.is_digit s = false →
   Hex.unhexlify s = Raise TypeError).
Proof.
  induction s as [| c | c d t [IHyes IHno]] using string_pair_ind.
  - split; [by exists EmptyString | done].
  - split; [done | done].
  - cbn [String.length Nat.even Str.all Hex.unhexlify].
    assert (Hc : Hex.is_digit c = bool_decide (is_Some (Hex.digit_val c)))
      by (unfold Hex.is_digit; by destruct (Hex.digit_val c)).
    assert (Hd : Hex.is_digit d = bool_decide (is_Some (Hex.digit_val d)))
      by (unfold Hex.is_digit; by destruct (Hex.digit_val d)).
    rewrite Hc, Hd.
    destruct (Hex.digit_val c) as [h |];
      [| cbn; rewrite andb_false_r; split; done].
    destruct (Hex.digit_val d) as [l |];
      [| cbn; rewrite andb_false_r; split; done].
    cbn [andb bool_decide decide_rel]. split.
    + intros [r [-> Hr]]%IHyes. eexists. split; [done |].
      cbn [String.length]. lia.
    + intros ->%IHno. done.
Qed.

(** ** Which connections store bytes *)

(** X1. The 16-byte encoding is used exactly under a connection whose
    vendor contains [mysql] and not [postgres], on any field object; never
    without a connection. *)
Theorem db_is_binary_by_vendor (self : UUIDField.t) :
  (∀ c, UUIDField._db_is_binary self (Some c)
        = negb (Str.contains "postgres" (vendor c))
          && Str.contains "mysql" (vendor c)) ∧
  UUIDField._db_is_binary self None = false.
Proof.
  unfold UUIDField._db_is_binary, UUIDField.db_type, UUIDField.vendor_has.
  split; [intros c |].
  - destruct (Str.contains "postgres" (vendor c)); [done |].
    destruct (Str.contains "mysql" (vendor c)); done.
  - done.
Qed.

(** ** Text on the way out *)

Lemma get_db_prep_value_hex (self : UUIDField.t) (u : uuid.UUID)
    (connection : option Connection) :
  UUIDField.get_db_prep_value self (PStr (uuid.get_hex u)) connection
  = UUIDField.get_db_prep_value self (PUUID u) connection.
Proof.
  rewrite get_db_prep_value_text, replace_dash_hex, unhexlify_get_hex. done.
Qed.

Lemma get_db_prep_value_str (self : UUIDField.t) (u : uuid.UUID)
    (connection : option Connection) :
  UUIDField.get_db_prep_value self (PStr (UUID_str u)) connection
  = UUIDField.get_db_prep_value self (PUUID u) connection.
Proof.
  rewrite get_db_prep_value_text, replace_dash_str, unhexlify_get_hex. done.
Qed.

(** X2. Under every connection the hex form of a [UUID] and its dashed
    spelling are sent as the very value the [UUID] object is sent as. *)
Theorem spellings_sent_as_object (self : UUIDField.t) (u : uuid.UUID)
    (connection : option Connection) :
  UUIDField.get_db_prep_value self (PStr (uuid.get_hex u)) connection
  = UUIDField.get_db_prep_value self (PUUID u) connection ∧
  UUIDField.get_db_prep_value self (PStr (UUID_str u)) connection
  = UUIDField.get_db_prep_value self (PUUID u) connection.
Proof. split; [apply get_db_prep_value_hex | apply get_db_prep_value_str]. Qed.

(** X3. Under a connection that stores 16 bytes the case of a string does
    not matter: the string and its lowercase form are sent as the same
    bytes, or refused alike. *)
Theorem binary_ignores_case (self : UUIDField.t) (s : string)
    (connection : option Connection) :
  UUIDField.db_type self connection = "binary(16)" →
  UUIDField.get_db_prep_value self (PStr (Str.lower s)) connection
  = UUIDField.get_db_prep_value self (PStr s) connection.
Proof.
  intros Hbin%db_is_binary_iff. rewrite !get_db_prep_value_text, Hbin.
  by rewrite replace_dash_lower, unhexlify_lower.
Qed.

Lemma binary_ignores_case_witness :
  UUIDField.get_db_prep_value auto_field
    (PStr (Str.lower "ABCDEF01-2345-6789-ABCD-EF0123456789")) mysql
  = UUIDField.get_db_prep_value auto_field
    (PStr "ABCDEF01-2345-6789-ABCD-EF0123456789") mysql.
Proof. apply binary_ignores_case. reflexivity. Defined.

(** X4. Under a connection that stores text a string is never refused:
    it is sent as it is but for its dashes, which are left out, and
    sending the result again changes nothing. *)
Theorem text_sent_without_dashes (self : UUIDField.t) (s : string)
    (connection : option Connection) :
  UUIDField.db_type self connection ≠ "binary(16)" →
  UUIDField.get_db_prep_value self (PStr s) connection
  = Ok (PStr (drop_dashes s)) ∧
  Str.mem "-" (drop_dashes s) = false ∧
  UUIDField.get_db_prep_value self (PStr (drop_dashes s)) connection
  = Ok (PStr (drop_dashes s)).
Proof.
  intros Hbin. rewrite <- db_is_binary_iff in Hbin.
  apply not_true_is_false in Hbin.
  rewrite !get_db_prep_value_text, Hbin, <- !replace_dash_drop.
  split; [done |]. split.
  - apply no_dash_mem, replace_dash_none.
  - by rewrite (replace_absent "-" "" "" (Str.replace "-" "" s))
      by apply replace_dash_none.
Qed.

Lemma text_sent_without_dashes_witness :
  UUIDField.get_db_prep_value auto_field
    (PStr "6BA7B810-9dad-11d1-80b4-00c04fd430c8") sqlite
  = Ok (PStr (drop_dashes "6BA7B810-9dad-11d1-80b4-00c04fd430c8")) ∧
  Str.mem "-" (drop_dashes "6BA7B810-9dad-11d1-80b4-00c04fd430c8") = false ∧
  UUIDField.get_db_prep_value auto_field
    (PStr (drop_dashes "6BA7B810-9dad-11d1-80b4-00c04fd430c8")) sqlite
  = Ok (PStr (drop_dashes "6BA7B810-9dad-11d1-80b4-00c04fd430c8")).
Proof. apply text_sent_without_dashes. vm_compute. discriminate. Defined.

(** X5. Under a connection that stores 16 bytes a string goes through
    [unhexlify] once its dashes are gone: an even number of hexadecimal
    digits gives half as many bytes, whatever that number is, and any
    other string is a [TypeError]. *)
Theorem binary_text_unhexlified (self : UUIDField.t) (s : string)
    (connection : option Connection) :
  UUIDField.db_type self connection = "binary(16)" →
  (Nat.even (String.length (Str.replace "-" "" s))
   && Str.all Hex.is_digit (Str.replace "-" "" s) = true →
   ∃ r, UUIDField.get_db_prep_value self (PStr s) connection = Ok (PStr r) ∧
        String.length (Str.replace "-" "" s) = (2 * String.length r)%nat) ∧
  (Nat.even (String.length (Str.replace "-" "" s))
   && Str.all Hex.is_digit (Str.replace "-" "" s) = false →
   UUIDField.get_db_prep_value self (PStr s) connection = Raise TypeError).
Proof.
  intros Hbin%db_is_binary_iff. rewrite get_db_prep_value_text, Hbin.
  destruct (unhexlify_spec (Str.replace "-" "" s)) as [Hyes Hno].
  split.
  - intros [r [-> Hr]]%Hyes. by exists r.
  - intros ->%Hno. done.
Qed.

Lemma binary_text_unhexlified_witness :
  (∃ r, UUIDField.get_db_prep_value auto_field (PStr "ab-cd") mysql
        = Ok (PStr r) ∧
        String.length (Str.replace "-" "" "ab-cd") = (2 * String.length r)%nat) ∧
  UUIDField.get_db_prep_value auto_field (PStr "abc") mysql = Raise TypeError.
Proof.
  split.
  - apply (binary_text_unhexlified auto_field "ab-cd" mysql); reflexivity.
  - apply (binary_text_unhexlified auto_field "abc" mysql); reflexivity.
Defined.

(** ** What comes in *)

Lemma to_python_str (self : UUIDField.t) (s : string) :
  UUIDField.to_python self (PStr s) = Ok PNone ∨
  (∃ u, UUIDField.to_python self (PStr s) = Ok (PUUID u)) ∨
  UUIDField.to_python self (PStr s) = Raise ValueError.
Proof.
  destruct (Nat.eq_dec (String.length s) 0%nat) as [H0 | H0].
  { left. by destruct s. }
  right. destruct (Nat.eq_dec (String.length s) 16%nat) as [H16 | H16].
  - left. rewrite to_python_str16 by done. cbn [UUID_of_bytes].
    destruct (of_bytes_16 s H16) as (u & -> & _). by exists u.
  - rewrite to_python_str_other by done. cbn [UUID_of_hex].
    destruct (uuid.of_hex s) as [u | e] eqn:Hof.
    + left. by exists u.
    + right. by rewrite (of_hex_error _ _ Hof).
Qed.

(** X6. What [to_python] returns is [None] or a [UUID] object, and
    [to_python] gives it back unchanged: converting twice is converting
    once. *)
Theorem to_python_idempotent (self : UUIDField.t) (value r : PyVal) :
  UUIDField.to_python self value = Ok r →
  (r = PNone ∨ ∃ u, r = PUUID u) ∧ UUIDField.to_python self r = Ok r.
Proof.
  intros Hto.
  assert (Hr : r = PNone ∨ ∃ u, r = PUUID u).
  { destruct value as [| b | n | s | u].
    - left. by injection Hto.
    - destruct b; [discriminate Hto | left; by injection Hto].
    - unfold UUIDField.to_python in Hto. cbn in Hto.
      destruct (n =? 0); [left; by injection Hto | discriminate Hto].
    - destruct (to_python_str self s) as [H | [[u H] | H]];
        rewrite H in Hto; [left | right; exists u | discriminate Hto];
        by injection Hto.
    - right. exists u. by injection Hto. }
  split; [done |]. destruct Hr as [-> | [u ->]]; done.
Qed.

Lemma to_python_idempotent_witness :
  (PUUID uuid.NAMESPACE_DNS = PNone ∨ ∃ u, PUUID uuid.NAMESPACE_DNS = PUUID u) ∧
  UUIDField.to_python auto_field (PUUID uuid.NAMESPACE_DNS)
  = Ok (PUUID uuid.NAMESPACE_DNS).
Proof.
  apply (to_python_idempotent auto_field
           (PStr "6ba7b810-9dad-11d1-80b4-00c04fd430c8")).
  reflexivity.
Defined.

(** X7. A nonzero [int] and [True] have no length: on them [to_python]
    raises [TypeError]. On a string the one exception it raises is
    [ValueError], and never on the empty string. *)
Theorem to_python_errors (self : UUIDField.t) :
  (∀ n, n ≠ 0 → UUIDField.to_python self (PInt n) = Raise TypeError) ∧
  UUIDField.to_python self (PBool true) = Raise TypeError ∧
  (∀ s e, UUIDField.to_python self (PStr s) = Raise e →
     s ≠ EmptyString ∧ e = ValueError).
Proof.
  split; [| split].
  - intros n Hn. unfold UUIDField.to_python. cbn.
    by destruct (Z.eqb_spec n 0).
  - done.
  - intros s e Hto.
    destruct (to_python_str self s) as [H | [[u H] | H]];
      rewrite H in Hto; try done. injection Hto as <-.
    split; [| done]. intros ->. discriminate H.
Qed.

(** X8. Under a connection that stores 16 bytes, any 16 bytes that come in
    go out again as the same 16 bytes. *)
Theorem binary_read_write (self : UUIDField.t) (s : string)
    (connection : option Connection) :
  String.length s = 16%nat →
  UUIDField.db_type self connection = "binary(16)" →
  UUIDField.to_python self (PStr s)
    ≫= (fun v => UUIDField.get_db_prep_value self v connection)
  = Ok (PStr s).
Proof.
  intros Hlen Hbin%db_is_binary_iff.
  rewrite to_python_str16 by done. cbn [UUID_of_bytes].
  destruct (of_bytes_16 s Hlen) as (u & -> & Hu).
  cbn [mbind Result_bind]. unfold UUIDField.get_db_prep_value. rewrite Hbin.
  destruct (get_bytes_spec u) as [Blen Bval].
  do 2 f_equal. apply be_int_inj; [congruence | congruence].
Qed.

Lemma binary_read_write_witness :
  UUIDField.to_python auto_field (PStr "0123456789abcdef")
    ≫= (fun v => UUIDField.get_db_prep_value auto_field v mysql)
  = Ok (PStr "0123456789abcdef").
Proof. apply binary_read_write; reflexivity. Defined.

(** X9. Under a connection that stores text, 32 small hexadecimal digits
    that come in go out again as the same 32 characters. *)
Theorem text_read_write (self : UUIDField.t) (s : string)
    (connection : option Connection) :
  String.length s = 32%nat →
  Str.all Hex.is_lower_digit s = true →
  UUIDField.db_type self connection ≠ "binary(16)" →
  UUIDField.to_python self (PStr s)
    ≫= (fun v => UUIDField.get_db_prep_value self v connection)
  = Ok (PStr s).
Proof.
  intros Hlen Hall Hbin. rewrite <- db_is_binary_iff in Hbin.
  apply not_true_is_false in Hbin.
  rewrite to_python_str_other by (rewrite Hlen; done). cbn [UUID_of_hex].
  pose proof (scan_acc s 0 Hall) as Hscan. rewrite Z.mul_0_l, Z.add_0_l in Hscan.
  rewrite (of_hex_lower_digits s _ Hlen Hall Hscan).
  pose proof (scan_bound s 0 ltac:(lia)) as Hb. rewrite Hlen in Hb.
  change (16 ^ Z.of_nat 32) with (2 ^ 128) in Hb.
  assert (Hr : uuid.in_range (Hex.scan 0 s).1 = true).
  { unfold uuid.in_range. apply andb_true_iff.
    split; [apply Z.leb_le | apply Z.ltb_lt]; lia. }
  pose proof (of_int_int (uuid.mkUUID _ Hr)) as Hof. cbn [uuid.int] in Hof.
  rewrite Hof. cbn [mbind Result_bind].
  unfold UUIDField.get_db_prep_value. rewrite Hbin.
  destruct (get_hex_spec (uuid.mkUUID _ Hr)) as (Glen & Gall & Gscan).
  do 2 f_equal. apply lower_digits_inj; try done; [congruence |].
  by rewrite Gscan.
Qed.

Lemma text_read_write_witness :
  UUIDField.to_python auto_field (PStr "6ba7b8109dad11d180b400c04fd430c8")
    ≫= (fun v => UUIDField.get_db_prep_value auto_field v sqlite)
  = Ok (PStr "6ba7b8109dad11d180b400c04fd430c8").
Proof.
  apply text_read_write; [reflexivity | reflexivity |].
  vm_compute. discriminate.
Defined.

(** ** Construction and generation together *)

Lemma bind_name (args : list PyVal) (kwargs bound : gmap string PyVal) :
  Field.bind args kwargs = Ok bound → kwargs !! "name" = None →
  bound !! "name" = args !! 1%nat.
Proof.
  unfold Field.bind. destruct (Field.known_keywords kwargs); [| discriminate].
  intros Hbind Hname. revert Hbind.
  change Field.params
    with ("verbose_name" :: "name" :: tail (tail Field.params)).
  generalize (tail (tail Field.params)). intros rest Hbind.
  destruct args as [| a0 [| a1 args]]; cbn [Field.bind_positional] in Hbind.
  - by injection Hbind as <-.
  - destruct (kwargs !! "verbose_name"); [discriminate |].
    injection Hbind as <-. by rewrite lookup_insert_ne.
  - destruct (kwargs !! "verbose_name"); [discriminate |].
    destruct (<["verbose_name" := a0]> kwargs !! "name"); [discriminate |].
    apply (bind_positional_keeps _ _ _ _ _ _ Hbind), lookup_insert_eq.
Qed.

(** X10. On a constructed field with one of the versions 1, 3, 4, 5,
    [_create_uuid] calls the generator of that version: [uuid1] with the
    constructor's [node] and [clock_seq], [uuid4] with nothing, [uuid3] or
    [uuid5] with the constructor's [namespace]; the name they get is not
    the constructor's [name] but what the base class has put in
    [self.name]: its own second positional argument, else [None], and the
    attribute name once the field is bound. A [namespace] that is no
    [UUID] object is refused, the host left alone. *)
Theorem create_uuid_dispatch {World : Type} {G : Generators World}
    (a : UUIDField.InitArgs) (self : UUIDField.t) (att : string) (w : World) :
  UUIDField.__init__ a = Ok self →
  UUIDField.arg_kwargs a !! "name" = None →
  UUIDField._create_uuid self w =
    (if UUIDField.arg_version a =? 1
     then uuid1 (UUIDField.arg_node a) (UUIDField.arg_clock_seq a) w
     else if UUIDField.arg_version a =? 4 then uuid4 w
     else if negb (isinstance_UUID (UUIDField.arg_namespace a))
     then (Raise ValueError, w)
     else if UUIDField.arg_version a =? 3
     then uuid3 (UUIDField.arg_namespace a)
            (default PNone (UUIDField.arg_args a !! 1%nat)) w
     else uuid5 (UUIDField.arg_namespace a)
            (default PNone (UUIDField.arg_args a !! 1%nat)) w) ∧
  UUIDField._create_uuid (UUIDField.set_attname self att) w =
    (if UUIDField.arg_version a =? 1
     then uuid1 (UUIDField.arg_node a) (UUIDField.arg_clock_seq a) w
     else if UUIDField.arg_version a =? 4 then uuid4 w
     else if negb (isinstance_UUID (UUIDField.arg_namespace a))
     then (Raise ValueError, w)
     else if UUIDField.arg_version a =? 3
     then uuid3 (UUIDField.arg_namespace a) (PStr att) w
     else uuid5 (UUIDField.arg_namespace a) (PStr att) w).
Proof.
  intros Hinit Hkw. revert Hinit.
  destruct a as [v nd cs ns nm au args kw]. unfold UUIDField.__init__.
  cbn [UUIDField.arg_version UUIDField.arg_node UUIDField.arg_clock_seq
       UUIDField.arg_namespace UUIDField.arg_name UUIDField.arg_auto
       UUIDField.arg_args UUIDField.arg_kwargs] in *.
  destruct (UUIDField.supported v) eqn:Hv; [| discriminate].
  apply supported_iff in Hv. cbn [negb].
  assert (Hbk : UUIDField.base_kwargs
                  (UUIDField.Build_InitArgs v nd cs ns nm au args kw)
                !! "name" = None).
  { unfold UUIDField.base_kwargs. cbn [UUIDField.arg_kwargs UUIDField.arg_auto].
    destruct au; by rewrite !lookup_insert_ne. }
  destruct Hv as [-> | [-> | [-> | ->]]]; cbn [Z.eqb Pos.eqb orb];
    (destruct (Field.bind _ _) as [bound | e] eqn:Hb; [| discriminate]);
    intros [= <-];
    unfold UUIDField._create_uuid, UUIDField._create_uuid_args, Field.get;
    rewrite ?(bind_name _ _ _ Hb Hbk); cbn;
    try done; by destruct (isinstance_UUID ns).
Qed.

Lemma create_uuid_dispatch_witness :
  UUIDField.__init__ v3_named_args = Ok v3_named_field ∧
  UUIDField._create_uuid v3_named_field [Ok sample_v4]
  = uuid3 (PUUID uuid.NAMESPACE_DNS) PNone [Ok sample_v4] ∧
  UUIDField._create_uuid (UUIDField.set_attname v3_named_field "uuid")
    [Ok sample_v4]
  = uuid3 (PUUID uuid.NAMESPACE_DNS) (PStr "uuid") [Ok sample_v4].
Proof.
  assert (Hinit : UUIDField.__init__ v3_named_args = Ok v3_named_field)
    by (vm_compute; reflexivity).
  destruct (create_uuid_dispatch v3_named_args v3_named_field "uuid"
              [Ok sample_v4] Hinit eq_refl) as (Hunbound & Hbound).
  split; [exact Hinit |]. split; [exact Hunbound | exact Hbound].
Defined.






(** ** After the hook has generated a value *)

(** X12. Once [pre_save] has generated a value for an instance, the
    instance holds the [UUID] object, and every later [pre_save] on it,
    insert or not, returns that object, generates nothing and changes
    nothing. The first call returns the hex string, the later ones the
    object. *)
Theorem pre_save_generates_once {World : Type} {G : Generators World}
    (self : UUIDField.t) (att : string) (inst : gmap string PyVal)
    (w w' : World) (u : uuid.UUID) :
  UUIDField.attname self = Some att →
  UUIDField.auto self = true →
  truthy (default PNone (inst !! att)) = false →
  UUIDField._create_uuid self w = (Ok u, w') →
  ∃ inst',
    UUIDField.pre_save self inst true w
    = (Ok (PStr (uuid.get_hex u)), inst', w') ∧
    inst' !! att = Some (PUUID u) ∧
    ∀ (add : bool) (w2 : World),
      UUIDField.pre_save self inst' add w2 = (Ok (PUUID u), inst', w2).
Proof.
  intros Hatt Hauto Hfalse Hgen.
  exists (<[att := PUUID u]> inst).
  unfold UUIDField.pre_save. rewrite Hatt, Hauto. cbn [UUIDField.getattr].
  rewrite Hfalse, Hgen, lookup_insert_eq. cbn.
  repeat split. intros add w2. by rewrite andb_false_r.
Qed.

Lemma pre_save_generates_once_witness :
  ∃ inst',
    UUIDField.pre_save auto_field ∅ true [Ok sample_v4]
    = (Ok (PStr (uuid.get_hex sample_v4)), inst', []) ∧
    inst' !! "uuid" = Some (PUUID sample_v4) ∧
    ∀ (add : bool) (w2 : list (Result uuid.UUID)),
      UUIDField.pre_save auto_field inst' add w2
      = (Ok (PUUID sample_v4), inst', w2).
Proof. apply pre_save_generates_once; reflexivity. Defined.

(** X13. The value that a generating [pre_save] returns, sent through
    [get_db_prep_value] and read back by [to_python] under any one
    connection, is the [UUID] object that the hook left on the instance. *)
Theorem saved_value_reads_back {World : Type} {G : Generators World}
    (self : UUIDField.t) (att : string) (inst : gmap string PyVal)
    (w w' : World) (u : uuid.UUID) (connection : option Connection) :
  UUIDField.attname self = Some att →
  UUIDField.auto self = true →
  truthy (default PNone (inst !! att)) = false →
  UUIDField._create_uuid self w = (Ok u, w') →
  ∃ value inst',
    UUIDField.pre_save self inst true w = (Ok value, inst', w') ∧
    (UUIDField.get_db_prep_value self value connection
       ≫= UUIDField.to_python self) = Ok (PUUID u) ∧
    inst' !! att = Some (PUUID u).
Proof.
  intros Hatt Hauto Hfalse Hgen.
  exists (PStr (uuid.get_hex u)), (<[att := PUUID u]> inst).
  unfold UUIDField.pre_save. rewrite Hatt, Hauto. cbn [UUIDField.getattr].
  rewrite Hfalse, Hgen, lookup_insert_eq. cbn [andb negb].
  split; [done |]. split; [| done].
  rewrite get_db_prep_value_hex. apply roundtrip.
Qed.

Lemma saved_value_reads_back_witness :
  ∃ value inst',
    UUIDField.pre_save auto_field ∅ true [Ok sample_v4]
    = (Ok value, inst', []) ∧
    (UUIDField.get_db_prep_value auto_field value mysql
       ≫= UUIDField.to_python auto_field) = Ok (PUUID sample_v4) ∧
    inst' !! "uuid" = Some (PUUID sample_v4).
Proof. apply saved_value_reads_back; reflexivity. Defined.

(** ** The string for serialization *)

Lemma value_to_string_attr (self : UUIDField.t) (att : string)
    (dflt : PyVal) (obj : gmap string PyVal) (v : PyVal) :
  UUIDField.attname self = Some att → obj !! att = Some v →
  UUIDField.value_to_string self dflt (Some obj)
  = if is_None v then Ok EmptyString else py_unicode v.
Proof.
  intros Hatt Hv. unfold UUIDField.value_to_string, UUIDField._get_val_from_obj.
  rewrite Hatt. cbn [UUIDField.getattr mbind Result_bind]. by rewrite Hv.
Qed.

Lemma UUID_str_length (u : uuid.UUID) : String.length (UUID_str u) = 36%nat.
Proof.
  destruct (get_hex_spec u) as (Hlen & _).
  unfold UUID_str. set (h := uuid.get_hex u) in *.
  do 32 (destruct h as [| ? h]; [discriminate Hlen |]).
  destruct h; [reflexivity | discriminate Hlen].
Qed.

(** X14. The string that [value_to_string] writes for an attribute that
    holds [None] or a [UUID] object is read by [to_python] as that very
    value. *)
Theorem value_to_string_reads_back (self : UUIDField.t) (att : string)
    (dflt : PyVal) (obj : gmap string PyVal) (v : PyVal) :
  UUIDField.attname self = Some att →
  obj !! att = Some v →
  is_None v || isinstance_UUID v = true →
  UUIDField.value_to_string self dflt (Some obj)
    ≫= (fun s => UUIDField.to_python self (PStr s))
  = Ok v.
Proof.
  intros Hatt Hv Hkind. rewrite (value_to_string_attr _ _ _ _ _ Hatt Hv).
  destruct v as [| b | n | s | u]; try done.
  cbn [is_None py_unicode py_str mbind Result_bind].
  apply to_python_spellings.
Qed.

Lemma value_to_string_reads_back_witness :
  UUIDField.value_to_string auto_field PNone
    (Some {[ "uuid" := PUUID sample_v4 ]})
    ≫= (fun s => UUIDField.to_python auto_field (PStr s))
  = Ok (PUUID sample_v4).
Proof.
  apply (value_to_string_reads_back auto_field "uuid"); reflexivity.
Defined.

(** X15. For an attribute that holds a [UUID] object [value_to_string]
    writes 36 characters, with dashes at the places 8, 13, 18 and 23, that
    without the dashes are the hex form; for one that holds [None] it
    writes the empty string, and without the attribute it raises
    [AttributeError]. *)
Theorem value_to_string_shape (self : UUIDField.t) (att : string)
    (dflt : PyVal) (obj : gmap string PyVal) :
  UUIDField.attname self = Some att →
  (∀ u, obj !! att = Some (PUUID u) →
     ∃ s, UUIDField.value_to_string self dflt (Some obj) = Ok s ∧
          String.length s = 36%nat ∧
          Str.replace "-" "" s = uuid.get_hex u ∧
          String.get 8 s = Some "-"%char ∧ String.get 13 s = Some "-"%char ∧
          String.get 18 s = Some "-"%char ∧ String.get 23 s = Some "-"%char) ∧
  (obj !! att = Some PNone →
     UUIDField.value_to_string self dflt (Some obj) = Ok EmptyString) ∧
  (obj !! att = None →
     UUIDField.value_to_string self dflt (Some obj) = Raise AttributeError).
Proof.
  intros Hatt. split; [| split].
  - intros u Hu. exists (UUID_str u).
    rewrite (value_to_string_attr _ _ _ _ _ Hatt Hu).
    split; [done |]. split; [apply UUID_str_length |].
    split; [apply replace_dash_str |].
    destruct (get_hex_spec u) as (Hlen & _).
    unfold UUID_str. set (h := uuid.get_hex u) in *.
    do 32 (destruct h as [| ? h]; [discriminate Hlen |]).
    destruct h; [| discriminate Hlen]. repeat split.
  - intros Hn. by rewrite (value_to_string_attr _ _ _ _ _ Hatt Hn).
  - intros Hn. unfold UUIDField.value_to_string, UUIDField._get_val_from_obj.
    rewrite Hatt. cbn [UUIDField.getattr mbind Result_bind]. by rewrite Hn.
Qed.

Lemma value_to_string_shape_witness :
  UUIDField.value_to_string auto_field PNone (Some {[ "uuid" := PNone ]})
  = Ok EmptyString.
Proof.
  assert (Hatt : UUIDField.attname auto_field = Some "uuid") by reflexivity.
  destruct (value_to_string_shape auto_field "uuid" PNone
              {[ "uuid" := PNone ]} Hatt) as (_ & Hnone & _).
  apply Hnone. reflexivity.
Defined.

(** ** The form field *)

(** X16. [formfield] on a constructed field passes every keyword of the
    caller on unchanged, and adds [max_length] 32 and the form class
    [forms.CharField] where the caller gives none. *)
Theorem formfield_defaults (a : UUIDField.InitArgs) (self : UUIDField.t)
    (kwargs : gmap string UUIDField.FormArg) :
  UUIDField.__init__ a = Ok self →
  (∀ k v, kwargs !! k = Some v →
     UUIDField.formfield self kwargs !! k = Some v) ∧
  (kwargs !! "max_length" = None →
     UUIDField.formfield self kwargs !! "max_length"
     = Some (UUIDField.FormValue (PInt 32))) ∧
  (kwargs !! "form_class" = None →
     UUIDField.formfield self kwargs !! "form_class"
     = Some (UUIDField.FormClass "forms.CharField")) ∧
  (∀ k, k ≠ "max_length" → k ≠ "form_class" →
     UUIDField.formfield self kwargs !! k = kwargs !! k).
Proof.
  intros Hmax%init_max_length. unfold UUIDField.formfield. rewrite Hmax.
  repeat split.
  - intros k v Hk. by apply lookup_union_Some_l.
  - intros Hn. rewrite lookup_union_r by done. apply lookup_insert_eq.
  - intros Hn. rewrite lookup_union_r by done.
    rewrite lookup_insert_ne by done. apply lookup_insert_eq.
  - intros k H1 H2. destruct (kwargs !! k) as [v |] eqn:Hk.
    + by apply lookup_union_Some_l.
    + rewrite lookup_union_r by done.
      rewrite !lookup_insert_ne by done. apply lookup_empty.
Qed.

Lemma formfield_defaults_witness :
  UUIDField.__init__ auto_args = Ok unbound_auto_field ∧
  UUIDField.formfield unbound_auto_field ∅ !! "max_length"
  = Some (UUIDField.FormValue (PInt 32)).
Proof.
  assert (Hinit : UUIDField.__init__ auto_args = Ok unbound_auto_field)
    by (vm_compute; reflexivity).
  destruct (formfield_defaults auto_args unbound_auto_field ∅ Hinit)
    as (_ & Hmax & _).
  split; [exact Hinit |]. apply Hmax. reflexivity.
Defined.
